(** * simplepbr: CPU image-based-lighting precompute ([_ibl_funcs/cpu.py])

    A shallow embedding of the functions of [src/simplepbr/_ibl_funcs/cpu.py]
    and the properties of its specification.

    Numbers.  The Python code computes with [int] (unbounded, here [Z]) and
    with [float].  The functions are written once over an interface
    [FloatOps] of the float operations and used at two carriers:
    - [Q], exact rational arithmetic (no rounding, no overflow), for the
      statements quantified over every input;
    - [PrimFloat.float], IEEE 754 binary64, the type of a Python float, for
      evaluation at concrete inputs, signed zeros, infinities and NaN
      included.
    The functions of the C math library ([math.sqrt], [math.sin],
    [math.cos], [math.atan2], [math.pow]) and [math.pi] are parameters of
    the functions that call them.

    Failure.  A Python exception is a value [Raise e] of [result]; a loop
    that never ends is [Diverge]. *)

From Stdlib Require Import ZArith QArith Lia Lqa String PrimFloat Uint63.
From stdpp Require Import base option list gmap.

Local Open Scope Z_scope.

(** ** Exceptions and results *)

Inductive exn : Type :=
| ZeroDivisionError
| UnboundLocalError
| ValueError
| RuntimeError (msg : string).

Inductive result (A : Type) : Type :=
| Ok (a : A)
| Raise (e : exn)
| Diverge.
Arguments Ok {A} a.
Arguments Raise {A} e.
Arguments Diverge {A}.

#[global] Instance result_ret : MRet result := fun _ a => Ok a.
#[global] Instance result_bind : MBind result := fun _ _ f m =>
  match m with
  | Ok a => f a
  | Raise e => Raise e
  | Diverge => Diverge
  end.

(** [for x in xs: s = body s x], stopping at the first exception. *)
Fixpoint for_each {S A : Type} (body : S -> A -> result S) (xs : list A) (s : S)
  : result S :=
  match xs with
  | [] => Ok s
  | x :: xs' => s' ← body s x; for_each body xs' s'
  end.

(** What a loop over a mutable object leaves in it, with how the loop
    ended: when an iteration raises, the object is as the iterations
    before it left it. *)
Fixpoint for_each_state {S A : Type} (body : S -> A -> result S) (xs : list A) (s : S)
  : S * result unit :=
  match xs with
  | [] => (s, Ok tt)
  | x :: xs' =>
      match body s x with
      | Ok s' => for_each_state body xs' s'
      | Raise e => (s, Raise e)
      | Diverge => (s, Diverge)
      end
  end.

(** Python's [range(n)] *)
Definition range (n : Z) : list Z := seqZ 0 n.

(** ** The float operations *)

Class FloatOps (F : Type) : Type := {
  f_of_Z : Z -> F;            (* float(n) *)
  f_add : F -> F -> F;
  f_sub : F -> F -> F;
  f_mul : F -> F -> F;
  f_div : F -> F -> F;        (* the IEEE quotient; Python guards it, see [py_div] *)
  f_neg : F -> F;
  f_ltb : F -> F -> bool;
  f_eqb : F -> F -> bool
}.

Declare Scope pyfloat_scope.
Delimit Scope pyfloat_scope with F.
Infix "+" := f_add : pyfloat_scope.
Infix "-" := f_sub : pyfloat_scope.
Infix "*" := f_mul : pyfloat_scope.
Infix "/" := f_div : pyfloat_scope.
Notation "- x" := (f_neg x) : pyfloat_scope.
Infix "<?" := f_ltb : pyfloat_scope.
Infix "=?" := f_eqb : pyfloat_scope.

(** Exact rationals.  [Q] has no infinity and no NaN, and [x / 0] is 0
    there: what a zero divisor gives is stated on binary64. *)
Definition Qltb (x y : Q) : bool := negb (Qle_bool y x).

#[global] Instance Q_ops : FloatOps Q := {|
  f_of_Z := inject_Z;
  f_add := Qplus;
  f_sub := Qminus;
  f_mul := Qmult;
  f_div := Qdiv;
  f_neg := Qopp;
  f_ltb := Qltb;
  f_eqb := Qeq_bool
|}.

(** IEEE binary64.  [float(n)] is exact for [|n| <= 2^53] and rounds to
    nearest below [2^63].  From [2^63] on the conversion below wraps modulo
    [2^63], where Python still rounds to nearest up to [2^1024] and raises
    [OverflowError] beyond: the definition stands for [float(n)] for
    [|n| < 2^63] only, and every evaluation below is of integers far
    smaller. *)
Definition float_of_Z (z : Z) : float :=
  if z <? 0 then PrimFloat.opp (PrimFloat.of_uint63 (Uint63.of_Z (- z)))
  else PrimFloat.of_uint63 (Uint63.of_Z z).

#[global] Instance float_ops : FloatOps float := {|
  f_of_Z := float_of_Z;
  f_add := PrimFloat.add;
  f_sub := PrimFloat.sub;
  f_mul := PrimFloat.mul;
  f_div := PrimFloat.div;
  f_neg := PrimFloat.opp;
  f_ltb := PrimFloat.ltb;
  f_eqb := PrimFloat.eqb
|}.

Section Python.
Context {F : Type} `{FloatOps F}.

(** The decimal literal [m / 10^k]: the correctly rounded quotient of two
    exactly represented integers is the float nearest to the decimal. *)
Definition f_dec (m : Z) (k : Z) : F := (f_of_Z m / f_of_Z (10 ^ k))%F.

Definition f0 : F := f_of_Z 0.
Definition f1 : F := f_of_Z 1.

(** [a / b] on Python floats *)
Definition py_div (a b : F) : result F :=
  if (b =? f0)%F then Raise ZeroDivisionError else Ok (a / b)%F.

(** [a / b] on Python ints (true division) *)
Definition py_int_div (a b : Z) : result F :=
  if b =? 0 then Raise ZeroDivisionError else Ok (f_of_Z a / f_of_Z b)%F.

(** [max(a, b)]: the first argument unless the second is greater *)
Definition py_max (a b : F) : F := if (a <? b)%F then b else a.

(** ** [calc_vector] *)

(** The local [vec] is bound by one of the six branches only; reading an
    unbound local raises [UnboundLocalError]. *)
Definition calc_vector (dim face_idx xloc yloc : Z) : result (F * F * F) :=
  xcoord ← py_div (f_of_Z xloc) (f_of_Z ((dim - 1) * 2 - 1));
  ycoord ← py_div (f_of_Z (1 - yloc)) (f_of_Z ((dim - 1) * 2));
  let vec : option (F * F * F) :=
    if face_idx =? 0 then Some (f1, ycoord, - xcoord)%F
    else if face_idx =? 1 then Some (- f1, ycoord, xcoord)%F
    else if face_idx =? 2 then Some (xcoord, f1, - ycoord)%F
    else if face_idx =? 3 then Some (xcoord, - f1, ycoord)%F
    else if face_idx =? 4 then Some (xcoord, ycoord, f1)%F
    else if face_idx =? 5 then Some (- xcoord, ycoord, - f1)%F
    else None in
  match vec with
  | Some v => Ok v
  | None => Raise UnboundLocalError
  end.

(** ** The C math library and the host vector types *)

Record MathLib : Type := {
  m_pi : F;
  m_sqrt : F -> F;
  m_sin : F -> F;
  m_cos : F -> F;
  m_atan2 : F -> F -> F;
  m_pow : F -> F -> F
}.

Context (libm : MathLib).

(** [math.sqrt(x)]: a negative argument raises [ValueError]. *)
Definition py_sqrt (x : F) : result F :=
  if (x <? f0)%F then Raise ValueError else Ok (m_sqrt libm x).

(** [p3d.LVector3] and [p3d.LVector2].  The host library stores single
    precision components; the narrowing is not modelled.  Its operators are
    compiled C++: none of them raises, and a zero divisor gives the IEEE
    quotient (the library may multiply by the reciprocal of the divisor
    instead of dividing: the same value in exact arithmetic, the same
    infinities and NaN for a zero divisor). *)
Record LVector3 : Type := V3 { v3x : F; v3y : F; v3z : F }.
Record LVector2 : Type := V2 { v2x : F; v2y : F }.
Record LColor : Type := Color { c_xyz : LVector3; c_w : F }.

Definition v3_zero : LVector3 := V3 f0 f0 f0.

Definition v3_add (a b : LVector3) : LVector3 :=
  V3 (v3x a + v3x b)%F (v3y a + v3y b)%F (v3z a + v3z b)%F.
Definition v3_sub (a b : LVector3) : LVector3 :=
  V3 (v3x a - v3x b)%F (v3y a - v3y b)%F (v3z a - v3z b)%F.
Definition v3_scale (a : LVector3) (s : F) : LVector3 :=
  V3 (v3x a * s)%F (v3y a * s)%F (v3z a * s)%F.
Definition v3_div (a : LVector3) (s : F) : LVector3 :=
  V3 (v3x a / s)%F (v3y a / s)%F (v3z a / s)%F.
Definition v3_dot (a b : LVector3) : F :=
  (v3x a * v3x b + v3y a * v3y b + v3z a * v3z b)%F.
Definition v3_cross (a b : LVector3) : LVector3 :=
  V3 (v3y a * v3z b - v3z a * v3y b)%F
     (v3z a * v3x b - v3x a * v3z b)%F
     (v3x a * v3y b - v3y a * v3x b)%F.
Definition v3_length_squared (a : LVector3) : F := v3_dot a a.

(** [v.normalize()] / [v.normalized()]: a zero vector stays zero, any other
    vector is divided by its length (the library leaves a vector alone
    whose squared length is 1 within [1e-12]; dividing by the square root
    of 1 does the same). *)
Definition v3_normalized (a : LVector3) : LVector3 :=
  let l2 := v3_length_squared a in
  if (l2 =? f0)%F then v3_zero else v3_div a (m_sqrt libm l2).

Definition v2_div (a : LVector2) (s : F) : LVector2 :=
  V2 (v2x a / s)%F (v2y a / s)%F.

(** ** Solid angle of a texel *)

Definition calc_sphere_quadrant_area (x y : F) : result F :=
  r ← py_sqrt (x * x + y * y + f1)%F;
  Ok (m_atan2 libm (x * y)%F r).

Definition calc_solid_angle (invdim : F) (x y : Z) : result F :=
  let two := f_of_Z 2 in
  let half := f_dec 5 1 in
  let s := ((f_of_Z x + half) * two * invdim - f1)%F in
  let t := ((f_of_Z y + half) * two * invdim - f1)%F in
  let x0 := (s - invdim)%F in
  let y0 := (t - invdim)%F in
  let x1 := (s + invdim)%F in
  let y1 := (t + invdim)%F in
  a ← calc_sphere_quadrant_area x0 y0;
  b ← calc_sphere_quadrant_area x0 y1;
  c ← calc_sphere_quadrant_area x1 y0;
  d ← calc_sphere_quadrant_area x1 y1;
  Ok (a - b - c + d)%F.

(** ** Spherical-harmonics projection *)

Definition get_sh_basis_from_vector (vec : F * F * F) : list F :=
  let '(vecx, vecy, vecz) := vec in
  [ f_dec 282095 6;
    f_dec 488603 6 * vecx;
    f_dec 488603 6 * vecz;
    f_dec 488603 6 * vecy;
    f_dec 1092548 6 * vecx * vecz;
    f_dec 1092548 6 * vecy * vecz;
    f_dec 1092548 6 * vecy * vecx;
    f_dec 946176 6 * vecz * vecz - f_dec 315392 6;
    f_dec 546274 6 * (vecx * vecx - vecy * vecy) ]%F.

(** [p3d.TexturePeeker]: texel readback by [(x, y, z)] and lookup by
    direction. *)
Record TexturePeeker : Type := {
  fetch_pixel : Z -> Z -> Z -> LColor;
  lookup : F -> F -> F -> LColor
}.

(** [p3d.Texture], as far as the code reads it. *)
Record Texture : Type := {
  z_size : Z;
  x_size : Z;
  y_size : Z;
  might_have_ram_image : bool;
  peek : option TexturePeeker
}.

(** [enumerate(xs)] *)
Definition enumerate {A : Type} (xs : list A) : list (nat * A) :=
  zip (seq 0 (length xs)) xs.

(** [for idx, value in enumerate(basis): shcoeffs[idx] += color * value].
    Both lists have nine entries: no index is out of range. *)
Definition sh_add (shcoeffs : list LVector3) (color : LVector3) (basis : list F)
  : list LVector3 :=
  foldl (fun cs iv => alter (fun c => v3_add c (v3_scale color iv.2)) iv.1 cs)
        shcoeffs (enumerate basis).

(** The generator [samples]: faces outermost, then x, then y. *)
Definition sh_samples (tex : Texture) : list (Z * Z * Z) :=
  face ← range (z_size tex);
  x ← range (x_size tex);
  y ← range (y_size tex);
  [(face, x, y)].

(** The texel loop.  [log] records the calls of [peeker.fetch_pixel] in
    order, as [(x, y, z)]; it is returned also when the loop raises. *)
Fixpoint sh_loop (peeker : TexturePeeker) (dim : Z) (invdim : F)
    (samples : list (Z * Z * Z)) (log : list (Z * Z * Z))
    (shcoeffs : list LVector3) : list (Z * Z * Z) * result (list LVector3) :=
  match samples with
  | [] => (log, Ok shcoeffs)
  | (face, x, y) :: rest =>
      let log := log ++ [(x, y, face)] in
      let color := c_xyz (fetch_pixel peeker x y face) in
      let step :=
        sa ← calc_solid_angle invdim x y;
        let color := v3_scale color sa in
        vec ← calc_vector dim face x y;
        Ok (sh_add shcoeffs color (get_sh_basis_from_vector vec)) in
      match step with
      | Ok shcoeffs' => sh_loop peeker dim invdim rest log shcoeffs'
      | Raise e => (log, Raise e)
      | Diverge => (log, Diverge)
      end
  end.

Definition sh_a0 : F := f_dec 3141593 6.
Definition sh_a1 : F := f_dec 2094395 6.
Definition sh_a2 : F := f_dec 785398 6.

(** [shcoeffs[i] *= a] *)
Definition sh_scale_at (i : nat) (a : F) (shcoeffs : list LVector3) : list LVector3 :=
  alter (fun c => v3_scale c a) i shcoeffs.

(** Convolution with the cosine lobe: indices 0 to 7. *)
Definition sh_convolve (shcoeffs : list LVector3) : list LVector3 :=
  sh_scale_at 7 sh_a2 (sh_scale_at 6 sh_a2 (sh_scale_at 5 sh_a2 (sh_scale_at 4 sh_a2
  (sh_scale_at 3 sh_a1 (sh_scale_at 2 sh_a1 (sh_scale_at 1 sh_a1
  (sh_scale_at 0 sh_a0 shcoeffs))))))).

(** The result pairs the log of texel reads with the outcome. *)
Definition get_sh_coeffs_from_cube_map (texcubemap : Texture)
  : list (Z * Z * Z) * result (list LVector3) :=
  if negb (z_size texcubemap =? 6) then
    ([], Raise (RuntimeError "supplied texture was not a cube map"))
  else if negb (x_size texcubemap =? y_size texcubemap) then
    ([], Raise (RuntimeError
           "supplied cube map is using unsupported, non-square dimensions"))
  else if negb (might_have_ram_image texcubemap) then
    ([], Raise (RuntimeError
           "expected might_have_ram_image() to be true on supplied texture"))
  else
    match peek texcubemap with
    | None => ([], Raise (RuntimeError "unable to get TexturePeeker for texture"))
    | Some peeker =>
        let dim := x_size texcubemap in
        match py_div f1 (f_of_Z dim) with
        | Ok invdim =>
            let shcoeffs := replicate 9 v3_zero in
            match sh_loop peeker dim invdim (sh_samples texcubemap) [] shcoeffs with
            | (log, Ok shcoeffs') => (log, Ok (sh_convolve shcoeffs'))
            | r => r
            end
        | Raise e => ([], Raise e)
        | Diverge => ([], Diverge)
        end
    end.

(** ** The Hammersley sequence *)

(** [divmod(a, b)]: floor division, the remainder has the sign of [b]. *)
Definition py_divmod (a b : Z) : result (Z * Z) :=
  if b =? 0 then Raise ZeroDivisionError else Ok (a / b, a mod b).

(** The [while idx:] loop, at most [fuel] iterations. *)
Fixpoint vdc_loop (fuel : nat) (idx base : Z) (res : F) (denom : Z) : result F :=
  if idx =? 0 then Ok res
  else
    match fuel with
    | O => Diverge
    | S fuel' =>
        let denom := denom * base in
        '(idx', rem) ← py_divmod idx base;
        q ← py_int_div rem denom;
        vdc_loop fuel' idx' base (res + q)%F denom
    end.

(** The loop ends within [2 * |idx| + 2] iterations or never
    (see [van_der_corput_adequate]). *)
Definition vdc_fuel (idx : Z) : nat := Z.to_nat (2 * Z.abs idx + 2).

Definition van_der_corput (idx base : Z) : result F :=
  vdc_loop (vdc_fuel idx) idx base f0 1.

(** [functools.lru_cache] stores the results of a function of its
    arguments alone: the cached function returns what the function
    returns. *)
Definition hammersley (idx maxnum : Z) : result (F * F) :=
  u ← py_int_div idx maxnum;
  v ← van_der_corput idx 2;
  Ok (u, v).

(** ** GGX importance sampling *)

(** Truth value of a Python int. *)
Definition py_truthy (n : Z) : bool := negb (n =? 0).

(** Line 181: [abs(normal.z < 0.999)] takes the absolute value of the
    comparison's result, [True] being 1 and [False] 0. *)
Definition ggx_upvec (normal : LVector3) : LVector3 :=
  if py_truthy (Z.abs (Z.b2z (v3z normal <? f_dec 999 3)%F))
  then V3 f0 f0 f1
  else V3 f1 f0 f0.

(** Cached by [functools.lru_cache] as [hammersley] is; no caller mutates
    the vector it returns. *)
Definition importance_sample_ggx (xi : F * F) (normal : LVector3) (roughness : F)
  : result LVector3 :=
  let alpha := (roughness * roughness)%F in
  let phi := (f_of_Z 2 * m_pi libm * xi.1)%F in
  quot ← py_div (f1 - xi.2)%F (f1 + (alpha * alpha - f1) * xi.2)%F;
  costheta ← py_sqrt quot;
  sintheta ← py_sqrt (f1 - costheta * costheta)%F;
  let hvec := V3 (m_cos libm phi * sintheta)%F (m_sin libm phi * sintheta)%F costheta in
  let upvec := ggx_upvec normal in
  let tangent := v3_normalized (v3_cross upvec normal) in
  let bitangent := v3_cross normal tangent in
  Ok (v3_normalized
        (v3_add (v3_add (v3_scale tangent (v3x hvec)) (v3_scale bitangent (v3y hvec)))
                (v3_scale normal (v3z hvec)))).

(** ** The geometry term *)

Definition geometry_schlick_ggx (ndotv roughness : F) : result F :=
  let alpha := roughness in
  let kibl := (alpha * alpha / f_of_Z 2)%F in
  py_div ndotv (ndotv * (f1 - kibl) + kibl)%F.

Definition geometry_smith (normal view light : LVector3) (roughness : F) : result F :=
  let ndotv := py_max (v3_dot normal view) f0 in
  let ndotl := py_max (v3_dot normal light) f0 in
  a ← geometry_schlick_ggx ndotv roughness;
  b ← geometry_schlick_ggx ndotl roughness;
  Ok (a * b)%F.

(** ** BRDF integration *)

(** The half vector of sample [idx] and the light direction reflected
    about it (lines 213 to 216, and 259 to 262). *)
Definition sample_light (normal view : LVector3) (roughness : F)
    (num_samples idx : Z) : result (LVector3 * LVector3) :=
  xi ← hammersley idx num_samples;
  hvec ← importance_sample_ggx xi normal roughness;
  let light := v3_sub (v3_scale (v3_scale hvec (f_of_Z 2)) (v3_dot view hvec)) view in
  Ok (hvec, v3_normalized light).

(** The contribution of an accepted sample (lines 221 to 228). *)
Definition brdf_accumulate (normal view : LVector3) (ndotv roughness : F)
    (hvec light : LVector3) (retval : LVector2) : result LVector2 :=
  let ndoth := py_max (v3z hvec) f0 in
  let vdoth := py_max (v3_dot view hvec) f0 in
  geom ← geometry_smith normal view light roughness;
  geom_vis ← py_div (geom * vdoth)%F (ndoth * ndotv)%F;
  let fresnel := m_pow libm (f1 - vdoth)%F (f_of_Z 5) in
  let retval := V2 (v2x retval + (f1 - fresnel) * geom_vis)%F (v2y retval) in
  Ok (V2 (v2x retval) (v2y retval + fresnel * geom_vis)%F).

(** The body of the sample loop. *)
Definition brdf_body (normal view : LVector3) (ndotv roughness : F) (num_samples : Z)
    (retval : LVector2) (idx : Z) : result LVector2 :=
  '(hvec, light) ← sample_light normal view roughness num_samples idx;
  let ndotl := py_max (v3z light) f0 in
  if (f0 <? ndotl)%F
  then brdf_accumulate normal view ndotv roughness hvec light retval
  else Ok retval.

Definition brdf_floor : F := f_dec 1 4.

Definition integrate_brdf (ndotv roughness : F) (num_samples : Z) : result LVector2 :=
  let ndotv := py_max ndotv brdf_floor in
  s ← py_sqrt (f1 - ndotv * ndotv)%F;
  let view := V3 s f0 ndotv in
  let normal := V3 f0 f0 f1 in
  let retval := V2 f0 f0 in
  retval ← for_each (brdf_body normal view ndotv roughness num_samples)
                    (range num_samples) retval;
  Ok (v2_div retval (f_of_Z num_samples)).

(** ** The BRDF lookup table *)

(** The RAM image of the table, by byte offset of each 4-byte float.
    [setup_2d_texture(lutsize, lutsize, T_float, F_rg16)] gives a texture of
    width [lutsize] with two components of four bytes. *)
Definition lut_x_size (lutsize : Z) : Z := lutsize.
Definition lut_component_width : Z := 4.
Definition lut_num_components : Z := 2.

(** [struct.pack_into('ff', handle, idx, a, b)] *)
Definition pack_into_ff (handle : gmap Z F) (idx : Z) (a b : F) : gmap Z F :=
  <[idx + 4 := b]> (<[idx := a]> handle).

Definition lut_body (lutsize num_samples : Z) (handle : gmap Z F) (yx : Z * Z)
  : result (gmap Z F) :=
  let '(ycoord, xcoord) := yx in
  let pixelsize := lut_component_width * lut_num_components in
  let xsize := lut_x_size lutsize in
  let idx := (ycoord * xsize + xcoord) * pixelsize in
  u ← py_int_div xcoord lutsize;
  v ← py_int_div ycoord lutsize;
  res ← integrate_brdf u v num_samples;
  Ok (pack_into_ff handle idx (v2y res) (v2x res)).

(** The nested loops: rows outermost. *)
Definition lut_texels (lutsize : Z) : list (Z * Z) :=
  ycoord ← range lutsize; xcoord ← range lutsize; [(ycoord, xcoord)].

Definition gen_brdf_lut (lutsize num_samples : Z) : result (gmap Z F) :=
  for_each (lut_body lutsize num_samples) (lut_texels lutsize) ∅.

(** ** Prefiltering the environment map *)

Definition filter_body (pos normal view : LVector3) (envmap : TexturePeeker)
    (roughness : F) (num_samples : Z) (acc : LVector3 * F) (idx : Z)
  : result (LVector3 * F) :=
  let '(retval, totweight) := acc in
  '(hvec, light) ← sample_light normal view roughness num_samples idx;
  let ndotl := py_max (v3_dot normal light) f0 in
  if (f0 <? ndotl)%F
  then
    let color := c_xyz (lookup envmap (v3x pos) (v3y pos) (v3z pos)) in
    Ok (v3_add retval (v3_scale color ndotl), (totweight + ndotl)%F)
  else Ok (retval, totweight).

Definition filter_sample (pos : LVector3) (envmap : TexturePeeker) (roughness : F)
    (num_samples : Z) : result LVector3 :=
  let normal := v3_normalized pos in
  let view := normal in
  '(retval, totweight) ←
     for_each (filter_body pos normal view envmap roughness num_samples)
              (range num_samples) (v3_zero, f0);
  Ok (v3_div retval totweight).

End Python.

Arguments MathLib F : clear implicits.
Arguments LVector3 F : clear implicits.
Arguments LVector2 F : clear implicits.
Arguments LColor F : clear implicits.
Arguments TexturePeeker F : clear implicits.
Arguments Texture F : clear implicits.

(** ** Values used in the statements *)

(** The two remapped coordinates of [calc_vector] (lines 30 and 31), in
    exact arithmetic. *)
Definition ndc_x (dim xloc : Z) : Q := (inject_Z xloc / inject_Z ((dim - 1) * 2 - 1))%Q.
Definition ndc_y (dim yloc : Z) : Q := (inject_Z (1 - yloc) / inject_Z ((dim - 1) * 2))%Q.

(** The acceptance test of both sample loops: [ndotl > 0] for
    [ndotl = max(d, 0)]. *)
Definition accepted {F : Type} `{FloatOps F} (d : F) : bool := (f0 <? py_max d f0)%F.

(** A math library on binary64 for the evaluations below, which call
    [sin] and [cos] at 0 only and [pow] with the exponent 5 only: [sqrt] is
    the correctly rounded IEEE square root, [pi] is the double nearest to
    pi, [sin] and [cos] return their values at 0, [pow] multiplies five
    times (the C function may differ from it in the last bit); [atan2] is
    not called there. *)
Definition libm_at_zero : MathLib float := {|
  m_pi := 0x1.921fb54442d18p+1%float;
  m_sqrt := PrimFloat.sqrt;
  m_sin := fun _ => 0%float;
  m_cos := fun _ => 1%float;
  m_atan2 := fun _ _ => 0%float;
  m_pow := fun x _ => (x * x * x * x * x)%float
|}.

(** A math library on [Q] for instantiating statements that hold for
    every math library; its functions are not those of the C library. *)
Definition libm_Q : MathLib Q := {|
  m_pi := (3141593 # 1000000)%Q;
  m_sqrt := fun x => x;
  m_sin := fun _ => 0%Q;
  m_cos := fun _ => 1%Q;
  m_atan2 := fun y _ => y;
  m_pow := fun x _ => x
|}.

(** A texture whose every texel, and every lookup, is white. *)
Definition white_peeker {F : Type} `{FloatOps F} : TexturePeeker F := {|
  fetch_pixel := fun _ _ _ => Color (V3 f1 f1 f1) f1;
  lookup := fun _ _ _ => Color (V3 f1 f1 f1) f1
|}.

Definition white_cube {F : Type} `{FloatOps F} (dim : Z) : Texture F := {|
  z_size := 6;
  x_size := dim;
  y_size := dim;
  might_have_ram_image := true;
  peek := Some white_peeker
|}.

(** A math library on binary64 for the evaluation of
    [integrate_brdf(0, 1, 4)]: its four samples call [sin] and [cos] at
    [2 * pi * (idx / 4)], and [sin] and [cos] return the values of the C
    library there (at 0, and at the doubles nearest to pi/2, pi and
    3pi/2); [sqrt], [pi] and [pow] are as in [libm_at_zero]. *)
Definition libm_quarter_turns : MathLib float := {|
  m_pi := 0x1.921fb54442d18p+1%float;
  m_sqrt := PrimFloat.sqrt;
  m_sin := fun x =>
    if PrimFloat.eqb x 0 then 0%float
    else if PrimFloat.eqb x 0x1.921fb54442d18p+0 then 1%float
    else if PrimFloat.eqb x 0x1.921fb54442d18p+1 then 0x1.1a62633145c07p-53%float
    else (-1)%float;
  m_cos := fun x =>
    if PrimFloat.eqb x 0 then 1%float
    else if PrimFloat.eqb x 0x1.921fb54442d18p+0 then 0x1.1a62633145c07p-54%float
    else if PrimFloat.eqb x 0x1.921fb54442d18p+1 then (-1)%float
    else (-0x1.a79394c9e8a0ap-53)%float;
  m_atan2 := fun _ _ => 0%float;
  m_pow := fun x _ => (x * x * x * x * x)%float
|}.

(** The view vector's x and the samples of [integrate_brdf(0, 1, 4)]
    under [libm_quarter_turns]. *)
Definition brdf_test_s : float :=
  match py_sqrt libm_quarter_turns
          (f1 - py_max 0%float brdf_floor * py_max 0%float brdf_floor)%F with
  | Ok s => s
  | _ => 0%float
  end.

Definition brdf_test_samples (idx : Z) : LVector3 float * LVector3 float :=
  match sample_light libm_quarter_turns (V3 f0 f0 f1)
          (V3 brdf_test_s f0 (py_max 0%float brdf_floor)) 1%float 4 idx with
  | Ok p => p
  | _ => (v3_zero, v3_zero)
  end.

(** The entries of [gen_brdf_lut(2, 1)] under [libm_at_zero]. *)
Definition lut_test_vals (x y : Z) : LVector2 float :=
  match integrate_brdf libm_at_zero (f_of_Z x / f_of_Z 2)%F (f_of_Z y / f_of_Z 2)%F 1 with
  | Ok v => v
  | _ => V2 0%float 0%float
  end.

(** ** Notions of the proofs *)

(** [r] raises only exceptions in [P]. *)
Definition raises_only {A : Type} (P : exn -> Prop) (r : result A) : Prop :=
  forall e, r = Raise e -> P e.

Definition not_runtime_error (e : exn) : Prop :=
  match e with RuntimeError _ => False | _ => True end.

(** With a base of -2 or less the index alternates in sign and shrinks:
    this quantity decreases at each iteration of [vdc_loop]. *)
Definition vdc_measure (idx : Z) : Z := 2 * Z.abs idx + (if 0 <? idx then 1 else 0).

(** Byte offset of texel [(y, x)] in the table of width [lutsize], and the
    write of [lut_body] when [integrate_brdf] returns [vals x y]. *)
Definition lut_offset (lutsize : Z) (yx : Z * Z) : Z := (yx.1 * lutsize + yx.2) * 8.

Definition lut_write {F : Type} (lutsize : Z) (vals : Z -> Z -> LVector2 F)
    (handle : gmap Z F) (yx : Z * Z) : gmap Z F :=
  pack_into_ff handle (lut_offset lutsize yx) (v2y (vals yx.2 yx.1)) (v2x (vals yx.2 yx.1)).

(** ** The mip chain of the filtered environment map *)

Section EnvMap.
Context {F : Type} `{FloatOps F} (libm : MathLib F).

(** [int(size * 0.5 ** i)] for a mip level [i >= 0]: scaling by a power of
    two is exact (for [|size| < 2^53]), and [int] truncates towards zero. *)
Definition mip_size (size i : Z) : Z := Z.quot size (2 ^ i).

(** [setup_cube_map(size, T_float, F_rgb32)] gives three components of
    four bytes. *)
Definition cube_component_width : Z := 4.
Definition cube_num_components : Z := 3.

(** [struct.pack_into('fff', texdata, offset, a, b, c)] *)
Definition pack_into_fff (texdata : gmap Z F) (offset : Z) (a b c : F) : gmap Z F :=
  <[offset + 8 := c]> (<[offset + 4 := b]> (<[offset := a]> texdata)).

(** The generator [coords]: faces outermost, then x, then y. *)
Definition env_texels (mipsize : Z) : list (Z * Z * Z) :=
  face ← range 6; x ← range mipsize; y ← range mipsize; [(face, x, y)].

(** The body of the texel loop (lines 302 to 307). *)
Definition env_body (peeker : TexturePeeker F) (mipsize : Z) (roughness : F)
    (num_samples : Z) (texdata : gmap Z F) (coord : Z * Z * Z) : result (gmap Z F) :=
  let '(face, xcoord, ycoord) := coord in
  let pixelsize := cube_component_width * cube_num_components in
  let offset := ((face * mipsize + ycoord) * mipsize + xcoord) * pixelsize in
  vec ← calc_vector mipsize face xcoord ycoord;
  let pos := V3 vec.1.1 vec.1.2 vec.2 in
  res ← filter_sample libm pos peeker roughness num_samples;
  Ok (pack_into_fff texdata offset (v3z res) (v3y res) (v3x res)).

(** The body of the mip loop (lines 291 to 308); [filtered] maps a mip
    level to its RAM image, by byte offset of each 4-byte float. *)
Definition mip_body (peeker : TexturePeeker F) (size num_mipmaps num_samples : Z)
    (filtered : gmap Z (gmap Z F)) (i : Z) : result (gmap Z (gmap Z F)) :=
  let mipsize := mip_size size i in
  roughness ← py_int_div i num_mipmaps;
  texdata ← for_each (env_body peeker mipsize roughness num_samples)
                     (env_texels mipsize) ∅;
  Ok (<[i := texdata]> filtered).

(** [filter_env_map], for an environment map whose [peek()] returns
    [peeker] (with no peeker the first accepted sample fails on
    [envmap.lookup]).  The result is the mip chain stored in [filtered]
    when the call returns; when it raises, the result is the exception
    alone, and the levels already stored in the caller's texture are given
    by [filter_env_map_stored]. *)
Definition filter_env_map (peeker : TexturePeeker F) (size num_mipmaps num_samples : Z)
  : result (gmap Z (gmap Z F)) :=
  for_each (mip_body peeker size num_mipmaps num_samples) (range num_mipmaps) ∅.

(** [filter_env_map] with the texture [filtered] it writes to: what the
    call leaves in it ([setup_cube_map] empties it first, and
    [set_ram_mipmap_image] stores a level once all its texels are
    computed), and how the call ends. *)
Definition filter_env_map_stored (peeker : TexturePeeker F)
    (size num_mipmaps num_samples : Z) : gmap Z (gmap Z F) * result unit :=
  for_each_state (mip_body peeker size num_mipmaps num_samples) (range num_mipmaps) ∅.

End EnvMap.

(** A math library on [Q] whose [sqrt] is exact at 0 and 1 and whose [sin]
    and [cos] are exact at 0: the values the evaluations of a single sample
    at a unit axis need. *)
Definition libm_Q_unit : MathLib Q := {|
  m_pi := (3141593 # 1000000)%Q;
  m_sqrt := fun x => x;
  m_sin := fun _ => 0%Q;
  m_cos := fun _ => 1%Q;
  m_atan2 := fun _ _ => 0%Q;
  m_pow := fun x _ => (x * x * x * x * x)%Q
|}.

(** Byte offset of texel [(face, x, y)] in a mip image of face size
    [mipsize]. *)
Definition env_offset (mipsize : Z) (c : Z * Z * Z) : Z :=
  ((c.1.1 * mipsize + c.2) * mipsize + c.1.2) * 12.

(** Componentwise equality of vectors over [Q]. *)
Definition v3_eq (a b : LVector3 Q) : Prop :=
  (v3x a == v3x b)%Q /\ (v3y a == v3y b)%Q /\ (v3z a == v3z b)%Q.

(** The write of [env_body] when [filter_sample] returns
    [vals face x y]. *)
Definition env_write {F : Type} (mipsize : Z) (vals : Z -> Z -> Z -> LVector3 F)
    (texdata : gmap Z F) (c : Z * Z * Z) : gmap Z F :=
  pack_into_fff texdata (env_offset mipsize c)
    (v3z (vals c.1.1 c.1.2 c.2)) (v3y (vals c.1.1 c.1.2 c.2)) (v3x (vals c.1.1 c.1.2 c.2)).

Definition v3_is_zero (c : LVector3 Q) : Prop := v3_eq c v3_zero.

(** A texture whose every texel, and every lookup, is black. *)
Definition black_peeker : TexturePeeker Q := {|
  fetch_pixel := fun _ _ _ => Color (V3 0 0 0)%Q 1%Q;
  lookup := fun _ _ _ => Color (V3 0 0 0)%Q 1%Q
|}.

Definition black_cube (dim : Z) : Texture Q := {|
  z_size := 6;
  x_size := dim;
  y_size := dim;
  might_have_ram_image := true;
  peek := Some black_peeker
|}.

(** The sample of [filter_sample((0, 0, 1), envmap, 1/2, 1)] under
    [libm_Q_unit]. *)
Definition filter_test_samples (idx : Z) : LVector3 Q * LVector3 Q :=
  match sample_light libm_Q_unit (V3 0 0 1)%Q (V3 0 0 1)%Q (1 # 2)%Q 1 idx with
  | Ok p => p
  | _ => (v3_zero, v3_zero)
  end.

(** The texels of [filter_env_map(white, size=2, num_mipmaps=1,
    num_samples=1)] under [libm_at_zero]. *)
Definition env_test_vals (i face x y : Z) : LVector3 float :=
  match calc_vector (mip_size 2 i) face x y with
  | Ok vec =>
      match filter_sample libm_at_zero (V3 vec.1.1 vec.1.2 vec.2) white_peeker
              (f_of_Z i / f_of_Z 1)%F 1 with
      | Ok v => v
      | _ => v3_zero
      end
  | _ => v3_zero
  end.

(** * Properties *)

(** ** Facts on the two carriers *)

Lemma Qltb_lt (x y : Q) : Qltb x y = true <-> (x < y)%Q.
Proof.
  unfold Qltb. rewrite negb_true_iff, <- not_true_iff_false, Qle_bool_iff.
  split; [apply Qnot_le_lt | apply Qlt_not_le].
Qed.

Lemma Qltb_ge (x y : Q) : Qltb x y = false <-> (y <= x)%Q.
Proof. unfold Qltb. rewrite negb_false_iff. apply Qle_bool_iff. Qed.

Lemma Q_of_Z_eqb_zero (z : Z) : Qeq_bool (inject_Z z) (inject_Z 0) = (z =? 0).
Proof. unfold Qeq_bool, inject_Z; simpl. rewrite Z.mul_1_r. reflexivity. Qed.

Lemma Q_py_div_Z (a d : Z) :
  d <> 0 -> py_div (F:=Q) (f_of_Z a) (f_of_Z d) = Ok (inject_Z a / inject_Z d)%Q.
Proof.
  intros Hd. unfold py_div, f0; simpl. rewrite Q_of_Z_eqb_zero.
  destruct (Z.eqb_spec d 0); [lia | reflexivity].
Qed.

Lemma Qdiv_Z_bounds (lo hi a d : Z) :
  0 < d -> lo * d <= a <= hi * d ->
  (inject_Z lo <= inject_Z a / inject_Z d <= inject_Z hi)%Q.
Proof.
  intros Hd [Hlo Hhi]. destruct d as [|p|p]; try lia.
  rewrite <- Qmake_Qdiv. unfold Qle; simpl. lia.
Qed.

Lemma Q_sqr_sum_nonneg (x y : Q) : (0 <= x * x + y * y + 1)%Q.
Proof.
  destruct x as [a b], y as [c d]. unfold Qle, Qplus, Qmult; simpl. nia.
Qed.

(** ** Loops *)

Section Loops.
Context {S A : Type}.

Lemma for_each_unchanged (body : S -> A -> result S) (xs : list A) (s : S) :
  (forall x, x ∈ xs -> body s x = Ok s) -> for_each body xs s = Ok s.
Proof.
  induction xs as [|x xs IH]; intros Hb; [reflexivity|].
  cbn [for_each]. rewrite Hb by left. cbn [mbind result_bind].
  apply IH. intros x' Hx'. apply Hb. right. exact Hx'.
Qed.

Lemma for_each_ext (body body' : S -> A -> result S) (xs : list A) :
  (forall s x, x ∈ xs -> body s x = body' s x) ->
  forall s, for_each body xs s = for_each body' xs s.
Proof.
  induction xs as [|x xs IH]; intros Hb s; [reflexivity|].
  cbn [for_each]. rewrite Hb by left.
  destruct (body' s x) as [s'| |]; cbn [mbind result_bind]; try reflexivity.
  apply IH. intros s0 x' Hx'. apply Hb. right. exact Hx'.
Qed.

(** Skipping the rejected elements is looping over the accepted ones. *)
Lemma for_each_filter (keep : A -> bool) (step : S -> A -> result S) (xs : list A) :
  forall s,
    for_each (fun s x => if keep x then step s x else Ok s) xs s
    = for_each step (List.filter keep xs) s.
Proof.
  induction xs as [|x xs IH]; intros s; [reflexivity|].
  cbn [for_each List.filter]. destruct (keep x); cbn [for_each mbind result_bind].
  - destruct (step s x); cbn [mbind result_bind]; [apply IH | reflexivity..].
  - apply IH.
Qed.

Lemma for_each_pure (body : S -> A -> result S) (g : S -> A -> S) (xs : list A) :
  (forall s x, x ∈ xs -> body s x = Ok (g s x)) ->
  forall s, for_each body xs s = Ok (foldl g s xs).
Proof.
  induction xs as [|x xs IH]; intros Hb s; [reflexivity|].
  cbn [for_each foldl]. rewrite Hb by left. cbn [mbind result_bind].
  apply IH. intros s0 x' Hx'. apply Hb. right. exact Hx'.
Qed.

End Loops.

(** ** [calc_vector] *)

Lemma calc_vector_Q_ok (dim face x y : Z) :
  dim <> 1 -> 0 <= face <= 5 -> exists v, calc_vector (F:=Q) dim face x y = Ok v.
Proof.
  intros Hd Hf. unfold calc_vector. rewrite !Q_py_div_Z by lia.
  cbn [mbind result_bind].
  repeat match goal with |- context [?a =? ?b] =>
    destruct (Z.eqb_spec a b); [eexists; reflexivity|] end.
  lia.
Qed.

Lemma ndc_range (dim xloc yloc : Z) :
  2 <= dim -> 0 <= xloc < dim -> 0 <= yloc < dim ->
  (0 <= ndc_x dim xloc <= 1)%Q /\ (- (1 # 2) < ndc_y dim yloc <= 1 # 2)%Q.
Proof.
  intros Hdim Hx Hy. unfold ndc_x, ndc_y.
  assert (exists p, (dim - 1) * 2 - 1 = Z.pos p) as [p Hp]
    by (destruct ((dim - 1) * 2 - 1) as [|p|p] eqn:E; [lia | eauto | lia]).
  assert (exists q, (dim - 1) * 2 = Z.pos q) as [q Hq]
    by (destruct ((dim - 1) * 2) as [|q|q] eqn:E; [lia | eauto | lia]).
  rewrite Hp, Hq, <- !Qmake_Qdiv.
  unfold Qle, Qlt; simpl. repeat split; lia.
Qed.

(** C1.  The remap of lines 30 and 31 does not reach [-1, 1], which the
    spec and the comment of line 29 ([# Remap [0, dimension] to [-1, 1]])
    announce: [* 2 - 1] stands inside the divisor.  The corner texel
    (0, 0) of a +Z face of size 16 gets the coordinates (0, 1/30) and the
    opposite corner (15, 15) gets (15/29, -14/30), where a remap to
    [-1, 1] sends the corners to about (-1, 1) and (1, -1).  For every
    face size [dim >= 2] and every texel, the first coordinate lies in
    [0, 1] and the second in (-1/2, 1/2]: no vector with a negative first
    coordinate is produced.  The assembly of the vector is as claimed:
    one component fixed to 1 or -1 and the two coordinates, signed, in the
    other two: +X [(1, y, -x)], -X [(-1, y, x)], +Y [(x, 1, -y)],
    -Y [(x, -1, y)], +Z [(x, y, 1)], -Z [(-x, y, -1)]. *)
Theorem calc_vector_remap_off_range :
  calc_vector (F:=Q) 16 4 0 0 = Ok (0 # 29, 1 # 30, 1)%Q
  /\ calc_vector (F:=Q) 16 4 15 15 = Ok (15 # 29, - 14 # 30, 1)%Q
  /\ calc_vector (F:=float) 16 4 0 0 = Ok (0, 1 / 30, 1)%float
  /\ calc_vector (F:=float) 16 4 15 15 = Ok (15 / 29, - (14 / 30), 1)%float
  /\ forall dim xloc yloc : Z,
       2 <= dim -> 0 <= xloc < dim -> 0 <= yloc < dim ->
       let xc := ndc_x dim xloc in
       let yc := ndc_y dim yloc in
       (0 <= xc <= 1)%Q /\ (- (1 # 2) < yc <= 1 # 2)%Q /\
       calc_vector dim 0 xloc yloc = Ok (1, yc, - xc)%Q /\
       calc_vector dim 1 xloc yloc = Ok (-1, yc, xc)%Q /\
       calc_vector dim 2 xloc yloc = Ok (xc, 1, - yc)%Q /\
       calc_vector dim 3 xloc yloc = Ok (xc, -1, yc)%Q /\
       calc_vector dim 4 xloc yloc = Ok (xc, yc, 1)%Q /\
       calc_vector dim 5 xloc yloc = Ok (- xc, yc, -1)%Q.
Proof.
  split; [reflexivity|]. split; [reflexivity|].
  split; [reflexivity|]. split; [reflexivity|].
  intros dim xloc yloc Hdim Hx Hy xc yc. subst xc yc.
  destruct (ndc_range dim xloc yloc Hdim Hx Hy) as [Hxc Hyc].
  split; [exact Hxc|]. split; [exact Hyc|].
  unfold calc_vector, ndc_x, ndc_y.
  rewrite !Q_py_div_Z by lia. repeat split.
Qed.

(** On binary64: texel (1, 1) of a face of size 2. *)
Example calc_vector_float_face4 :
  calc_vector (F:=float) 2 4 1 1 = Ok (1, 0, 1)%float.
Proof. reflexivity. Qed.

(** C10, as stated, fails for a face of size 1: the division of line 31
    raises [ZeroDivisionError] before any branch is reached. *)
Lemma calc_vector_bad_face_dim1 :
  calc_vector (F:=float) 1 6 0 0 = Raise ZeroDivisionError
  /\ calc_vector (F:=Q) 1 6 0 0 = Raise ZeroDivisionError.
Proof. split; reflexivity. Qed.

(** C10, amended.  For a face index outside 0..5 [calc_vector] never
    returns a vector: it raises [UnboundLocalError], except for [dim = 1],
    where it raises [ZeroDivisionError] first. *)
Theorem calc_vector_bad_face (dim face_idx xloc yloc : Z) :
  ~ (0 <= face_idx <= 5) ->
  calc_vector (F:=Q) dim face_idx xloc yloc =
    if dim =? 1 then Raise ZeroDivisionError else Raise UnboundLocalError.
Proof.
  intros Hf. unfold calc_vector.
  rewrite (Q_py_div_Z xloc ((dim - 1) * 2 - 1)) by lia. cbn [mbind result_bind].
  destruct (Z.eqb_spec dim 1) as [->|Hd].
  - reflexivity.
  - rewrite Q_py_div_Z by lia. cbn [mbind result_bind].
    repeat match goal with |- context [?a =? ?b] => destruct (Z.eqb_spec a b); [lia|] end.
    reflexivity.
Qed.

Lemma calc_vector_bad_face_witness :
  calc_vector (F:=Q) 4 6 0 0 = Raise UnboundLocalError.
Proof. apply (calc_vector_bad_face 4 6 0 0). lia. Defined.

(** ** The Hammersley sequence *)

Section VanDerCorput.
Context {F : Type} `{FloatOps F}.

Lemma vdc_loop_halts (base : Z) (fuel : nat) :
  2 <= base ->
  forall (idx : Z) (res : F) (denom : Z),
    0 <= idx -> (Z.to_nat idx <= fuel)%nat -> denom <> 0 ->
    exists v, vdc_loop fuel idx base res denom = Ok v.
Proof.
  intros Hb. induction fuel as [|fuel IH]; intros idx res denom Hi Hf Hd.
  - assert (idx = 0) as -> by lia. eexists; reflexivity.
  - simpl. destruct (Z.eqb_spec idx 0) as [->|Hnz]; [eexists; reflexivity|].
    unfold py_divmod, py_int_div.
    destruct (Z.eqb_spec base 0); [lia|].
    destruct (Z.eqb_spec (denom * base) 0); [nia|].
    cbn [mbind result_bind].
    assert (0 <= idx / base < idx) by (split; [apply Z.div_pos | apply Z.div_lt]; lia).
    apply IH; lia.
Qed.

Lemma vdc_loop_more_fuel (base : Z) (fuel : nat) :
  forall (idx : Z) (res : F) (denom : Z) (r : result F) (fuel' : nat),
    vdc_loop fuel idx base res denom = r -> r <> Diverge -> (fuel <= fuel')%nat ->
    vdc_loop fuel' idx base res denom = r.
Proof.
  induction fuel as [|fuel IH]; intros idx res denom r fuel' Hr Hnd Hle.
  - simpl in Hr. destruct fuel'; simpl; destruct (idx =? 0); congruence.
  - destruct fuel' as [|fuel']; [lia|]. simpl in *.
    destruct (idx =? 0); [assumption|].
    destruct (py_divmod idx base) as [[idx' rem]| |];
      cbn [mbind result_bind] in *; try assumption.
    destruct (py_int_div rem (denom * base)); cbn [mbind result_bind] in *; try assumption.
    apply IH; [assumption..|lia].
Qed.

Lemma vdc_measure_decreases (idx base : Z) :
  base <= -2 -> idx <> 0 -> 0 <= vdc_measure (idx / base) < vdc_measure idx.
Proof.
  intros Hb Hi. unfold vdc_measure.
  pose proof (Z.div_mod idx base ltac:(lia)) as Hdm.
  pose proof (Z.mod_neg_bound idx base ltac:(lia)) as Hm.
  destruct (Z.ltb_spec 0 idx); destruct (Z.ltb_spec 0 (idx / base)); nia.
Qed.

Lemma vdc_loop_halts_neg (base : Z) (fuel : nat) :
  base <= -2 ->
  forall (idx : Z) (res : F) (denom : Z),
    (Z.to_nat (vdc_measure idx) <= fuel)%nat -> denom <> 0 ->
    exists v, vdc_loop fuel idx base res denom = Ok v.
Proof.
  intros Hb. induction fuel as [|fuel IH]; intros idx res denom Hf Hd.
  - assert (idx = 0) as -> by (unfold vdc_measure in Hf; destruct (0 <? idx); lia).
    eexists; reflexivity.
  - simpl. destruct (Z.eqb_spec idx 0) as [->|Hnz]; [eexists; reflexivity|].
    unfold py_divmod, py_int_div.
    destruct (Z.eqb_spec base 0); [lia|].
    destruct (Z.eqb_spec (denom * base) 0); [nia|].
    cbn [mbind result_bind].
    pose proof (vdc_measure_decreases idx base Hb Hnz).
    apply IH; [lia|nia].
Qed.

(** The loop never ends: a negative index with a positive base stays
    negative, and with base 1 or -1 the index keeps its magnitude. *)
Lemma vdc_loop_never (base : Z) (fuel : nat) :
  forall (idx : Z) (res : F) (denom : Z),
    (1 <= base /\ idx < 0) \/ ((base = 1 \/ base = -1) /\ idx <> 0) ->
    denom <> 0 -> vdc_loop fuel idx base res denom = Diverge.
Proof.
  induction fuel as [|fuel IH]; intros idx res denom Hc Hd; simpl;
    (destruct (Z.eqb_spec idx 0); [lia|]); [reflexivity|].
  unfold py_divmod, py_int_div.
  destruct (Z.eqb_spec base 0); [lia|].
  destruct (Z.eqb_spec (denom * base) 0); [nia|].
  cbn [mbind result_bind]. apply IH; [|nia].
  destruct Hc as [[Hb Hi]|[[->| ->] Hi]].
  - left. split; [exact Hb|]. apply Z.div_lt_upper_bound; lia.
  - right. split; [lia|]. rewrite Z.div_1_r. exact Hi.
  - right. split; [lia|].
    replace (idx / -1) with (- idx); [lia|].
    apply Z.div_unique_exact; lia.
Qed.

(** [vdc_fuel] is enough whenever any number of iterations is: where
    [van_der_corput] is [Diverge], the loop of the source never ends. *)
Lemma van_der_corput_adequate (idx base : Z) (fuel : nat) :
  vdc_loop fuel idx base f0 1 <> Diverge ->
  van_der_corput idx base = vdc_loop fuel idx base f0 1.
Proof.
  intros Hnd. unfold van_der_corput.
  assert (vdc_loop (vdc_fuel idx) idx base f0 1 <> Diverge) as Hown.
  { destruct (Z.eq_dec idx 0) as [->|Hi]; [discriminate|].
    destruct (Z.eq_dec base 0) as [->|Hb0].
    { unfold vdc_fuel. destruct (Z.to_nat (2 * Z.abs idx + 2)) eqn:Hn; [lia|].
      simpl. destruct (Z.eqb_spec idx 0); [lia|]. discriminate. }
    destruct (Z_le_gt_dec base (-2)) as [Hneg|Hnneg].
    { destruct (vdc_loop_halts_neg base (vdc_fuel idx) Hneg idx f0 1) as [v ->];
        [unfold vdc_fuel, vdc_measure; destruct (0 <? idx); lia | lia | discriminate]. }
    destruct (Z_le_gt_dec 2 base) as [Hpos|Hsmall].
    { destruct (Z_lt_le_dec idx 0) as [Hineg|Hinn].
      - exfalso. apply Hnd. apply vdc_loop_never; [left|]; lia.
      - destruct (vdc_loop_halts base (vdc_fuel idx) Hpos idx f0 1) as [v ->];
          [lia | unfold vdc_fuel; lia | lia | discriminate]. }
    exfalso. apply Hnd. apply vdc_loop_never; [right|]; lia. }
  destruct (Nat.le_gt_cases fuel (vdc_fuel idx)) as [Hle|Hgt].
  - apply (vdc_loop_more_fuel base fuel); [reflexivity | assumption | assumption].
  - symmetry. apply (vdc_loop_more_fuel base (vdc_fuel idx));
      [reflexivity | assumption | lia].
Qed.

Lemma van_der_corput_halts (idx base : Z) :
  0 <= idx -> 2 <= base -> exists v, van_der_corput idx base = Ok v.
Proof.
  intros Hi Hb. apply vdc_loop_halts; unfold vdc_fuel; lia.
Qed.

Lemma hammersley_total (idx maxnum : Z) :
  0 <= idx -> 0 < maxnum ->
  exists v, van_der_corput idx 2 = Ok v
            /\ hammersley idx maxnum = Ok ((f_of_Z idx / f_of_Z maxnum)%F, v).
Proof.
  intros Hi Hn. destruct (van_der_corput_halts idx 2) as [v Hv]; [lia..|].
  exists v. split; [assumption|]. unfold hammersley, py_int_div.
  destruct (Z.eqb_spec maxnum 0); [lia|]. cbn [mbind result_bind]. rewrite Hv. reflexivity.
Qed.

End VanDerCorput.

(** C9.  For [i >= 0] and [n > 0], [van_der_corput(i, 2)] returns a value
    [v] and [hammersley(i, n)] returns the pair [(i / n, v)]; both
    components of [hammersley(0, n)] are zero. *)
Theorem hammersley_spec (i n : Z) :
  0 <= i -> 0 < n ->
  (exists v : Q, van_der_corput i 2 = Ok v
                 /\ hammersley i n = Ok ((inject_Z i / inject_Z n)%Q, v))
  /\ (exists u v : Q, hammersley 0 n = Ok (u, v) /\ (u == 0)%Q /\ (v == 0)%Q).
Proof.
  intros Hi Hn. split; [exact (hammersley_total (F:=Q) i n Hi Hn)|].
  exists (inject_Z 0 / inject_Z n)%Q, 0%Q. split; [|split; [|reflexivity]].
  - unfold hammersley, py_int_div. destruct (Z.eqb_spec n 0); [lia|]. reflexivity.
  - unfold Qdiv. apply Qmult_0_l.
Qed.

Lemma hammersley_spec_witness :
  exists v : Q, van_der_corput 5 2 = Ok v
                /\ hammersley 5 1024 = Ok ((inject_Z 5 / inject_Z 1024)%Q, v).
Proof. apply (hammersley_spec 5 1024); lia. Defined.

(** On binary64: the first point of the sequence. *)
Example hammersley_float_0 :
  hammersley (F:=float) 0 1024 = Ok (0, 0)%float.
Proof. reflexivity. Qed.

(** C4, as stated, fails: [van_der_corput(5, 2)] is not 0.8125, on
    binary64 or in exact arithmetic. *)
Lemma van_der_corput_5_not_08125 :
  van_der_corput (F:=float) 5 2 <> Ok 0.8125%float
  /\ forall q : Q, van_der_corput 5 2 = Ok q -> ~ (q == 8125 # 10000)%Q.
Proof.
  split.
  - intros Heq.
    assert (match van_der_corput (F:=float) 5 2 with
            | Ok v => PrimFloat.eqb v 0.8125
            | _ => false
            end = true) as Hb by (rewrite Heq; reflexivity).
    vm_compute in Hb. discriminate Hb.
  - intros q Hq. vm_compute in Hq. injection Hq as <-. intros Hq. discriminate Hq.
Qed.

(** C4, amended.  [van_der_corput(5, 2)] is 0.625 exactly (5 is 101 in
    base 2, reversed 0.101 = 1/2 + 1/8), and [hammersley(5, 1024)] is
    [(5 / 1024, 0.625)]. *)
Theorem hammersley_5_1024 :
  van_der_corput (F:=float) 5 2 = Ok 0.625%float
  /\ hammersley (F:=float) 5 1024 = Ok (0.0048828125%float, 0.625%float)
  /\ (0.0048828125 = float_of_Z 5 / float_of_Z 1024)%float
  /\ exists q : Q, van_der_corput 5 2 = Ok q /\ (q == 5 # 8)%Q
       /\ hammersley 5 1024 = Ok ((inject_Z 5 / inject_Z 1024)%Q, q).
Proof.
  repeat split; try reflexivity.
  eexists. split; [reflexivity|]. split; reflexivity.
Qed.

(** ** Spherical-harmonics projection *)

Section Raises.
Context {F : Type} `{FloatOps F} (libm : MathLib F).

Lemma raises_only_bind {A B : Type} (P : exn -> Prop) (m : result A) (f : A -> result B) :
  raises_only P m -> (forall a, raises_only P (f a)) -> raises_only P (m ≫= f).
Proof.
  intros Hm Hf e. destruct m as [a|e'|]; cbn [mbind result_bind].
  - apply Hf.
  - intros [= ->]. apply Hm. reflexivity.
  - discriminate.
Qed.

Lemma raises_only_Ok {A : Type} (P : exn -> Prop) (a : A) : raises_only P (Ok a).
Proof. intros e; discriminate. Qed.

Lemma raises_only_Raise {A : Type} (P : exn -> Prop) (e : exn) :
  P e -> raises_only (A:=A) P (Raise e).
Proof. intros He e' [= <-]. exact He. Qed.

Lemma py_div_raises (a b : F) : raises_only not_runtime_error (py_div a b).
Proof.
  unfold py_div. destruct (b =? f0)%F;
    [apply raises_only_Raise; exact I | apply raises_only_Ok].
Qed.

Lemma py_sqrt_raises (x : F) : raises_only not_runtime_error (py_sqrt libm x).
Proof.
  unfold py_sqrt. destruct (x <? f0)%F;
    [apply raises_only_Raise; exact I | apply raises_only_Ok].
Qed.

Lemma calc_sphere_quadrant_area_raises (x y : F) :
  raises_only not_runtime_error (calc_sphere_quadrant_area libm x y).
Proof.
  unfold calc_sphere_quadrant_area.
  apply raises_only_bind; [apply py_sqrt_raises | intros; apply raises_only_Ok].
Qed.

Lemma calc_solid_angle_raises (invdim : F) (x y : Z) :
  raises_only not_runtime_error (calc_solid_angle libm invdim x y).
Proof.
  unfold calc_solid_angle. cbv zeta.
  repeat (apply raises_only_bind; [apply calc_sphere_quadrant_area_raises | intros ?]).
  apply raises_only_Ok.
Qed.

Lemma calc_vector_raises (dim face x y : Z) :
  raises_only not_runtime_error (calc_vector (F:=F) dim face x y).
Proof.
  unfold calc_vector.
  repeat (apply raises_only_bind; [apply py_div_raises | intros ?]).
  cbv zeta.
  repeat match goal with |- context [if ?b then _ else _] => destruct b end;
    first [apply raises_only_Ok | apply raises_only_Raise; exact I].
Qed.

(** The texel loop raises no [RuntimeError]. *)
Lemma sh_loop_raises peeker dim invdim samples :
  forall log shcoeffs,
    raises_only not_runtime_error (sh_loop libm peeker dim invdim samples log shcoeffs).2.
Proof.
  induction samples as [|[[face x] y] rest IH]; intros log shcoeffs; cbn [sh_loop].
  - apply raises_only_Ok.
  - cbv zeta.
    match goal with |- context [match ?s with Ok _ => _ | Raise _ => _ | Diverge => _ end] =>
      assert (raises_only not_runtime_error s) as Hs; [|destruct s as [cs|e|]] end.
    + apply raises_only_bind; [apply calc_solid_angle_raises | intros sa].
      apply raises_only_bind; [apply calc_vector_raises | intros vec].
      apply raises_only_Ok.
    + apply IH.
    + cbn. apply raises_only_Raise. apply Hs. reflexivity.
    + cbn. intros e; discriminate.
Qed.

(** C8.  [get_sh_coeffs_from_cube_map] raises its [RuntimeError] exactly
    when the texture does not have 6 faces, is not square, or cannot be
    read back ([might_have_ram_image()] false or no peeker); and when it
    does, no texel has been read. *)
Theorem get_sh_coeffs_invalid_input (tex : Texture F) :
  let out := get_sh_coeffs_from_cube_map libm tex in
  ((exists msg, out.2 = Raise (RuntimeError msg))
   <-> (z_size tex <> 6 \/ x_size tex <> y_size tex
        \/ might_have_ram_image tex = false \/ peek tex = None))
  /\ (forall msg, out.2 = Raise (RuntimeError msg) -> out.1 = []).
Proof.
  cbv zeta. unfold get_sh_coeffs_from_cube_map.
  destruct (Z.eqb_spec (z_size tex) 6) as [Hz|Hz]; cbn [negb].
  2:{ split; [split; eauto|reflexivity]. }
  destruct (Z.eqb_spec (x_size tex) (y_size tex)) as [Hxy|Hxy]; cbn [negb].
  2:{ split; [split; eauto|reflexivity]. }
  destruct (might_have_ram_image tex) eqn:Hram; cbn [negb].
  2:{ split; [split; eauto 6|reflexivity]. }
  destruct (peek tex) as [peeker|] eqn:Hpeek.
  2:{ split; [split; eauto 6|reflexivity]. }
  assert (forall msg,
    (match py_div f1 (f_of_Z (x_size tex)) with
     | Ok invdim =>
         match sh_loop libm peeker (x_size tex) invdim (sh_samples tex) []
                 (replicate 9 v3_zero) with
         | (log, Ok shcoeffs') => (log, Ok (sh_convolve shcoeffs'))
         | r => r
         end
     | Raise e => ([], Raise e)
     | Diverge => ([], Diverge)
     end).2 <> Raise (RuntimeError msg)) as Hno.
  { intros msg Hr.
    pose proof (py_div_raises f1 (f_of_Z (x_size tex))) as Hd.
    destruct (py_div f1 (f_of_Z (x_size tex))) as [invdim|e|].
    - pose proof (sh_loop_raises peeker (x_size tex) invdim (sh_samples tex) []
                    (replicate 9 v3_zero)) as Hl.
      destruct (sh_loop libm peeker (x_size tex) invdim (sh_samples tex) []
                  (replicate 9 v3_zero)) as [log [cs|e|]]; cbn in Hr, Hl; try discriminate.
      apply (Hl _ Hr).
    - cbn in Hr. injection Hr as ->. apply (Hd _ eq_refl).
    - discriminate. }
  split; [split|].
  - intros [msg Hr]. destruct (Hno _ Hr).
  - intros [?|[?|[?|?]]]; congruence.
  - intros msg Hr. destruct (Hno _ Hr).
Qed.

Lemma sh_add_length shcoeffs color basis :
  length (sh_add shcoeffs color basis) = length shcoeffs.
Proof.
  unfold sh_add. generalize (enumerate basis) as ivs. intros ivs.
  revert shcoeffs. induction ivs as [|iv ivs IH]; intros cs; [reflexivity|].
  cbn [foldl]. rewrite IH. apply length_alter.
Qed.

Lemma length_9 {A : Type} (l : list A) :
  length l = 9%nat ->
  exists c0 c1 c2 c3 c4 c5 c6 c7 c8, l = [c0; c1; c2; c3; c4; c5; c6; c7; c8].
Proof.
  intros Hl. do 9 (destruct l as [|? l]; [discriminate|]).
  destruct l; [|discriminate]. repeat eexists.
Qed.

(** The texel loop reads every sample, in order, as long as no step raises. *)
Lemma sh_loop_ok peeker dim invdim samples :
  (forall face x y, (face, x, y) ∈ samples ->
     (exists sa, calc_solid_angle libm invdim x y = Ok sa)
     /\ exists v, calc_vector (F:=F) dim face x y = Ok v) ->
  forall log shcoeffs,
  exists shcoeffs',
    sh_loop libm peeker dim invdim samples log shcoeffs
    = (log ++ ((fun s => (s.1.2, s.2, s.1.1)) <$> samples), Ok shcoeffs')
    /\ length shcoeffs' = length shcoeffs.
Proof.
  induction samples as [|[[face x] y] rest IH]; intros Hok log shcoeffs; cbn [sh_loop].
  - exists shcoeffs. rewrite app_nil_r. split; reflexivity.
  - destruct (Hok face x y) as [[sa Hsa] [v Hv]]; [left|].
    cbv zeta. rewrite Hsa. cbn [mbind result_bind]. rewrite Hv. cbn [mbind result_bind].
    destruct (IH (fun f x y Hin => Hok f x y (list_elem_of_further _ _ _ Hin))
                (log ++ [(x, y, face)])
                (sh_add shcoeffs (v3_scale (c_xyz (fetch_pixel peeker x y face)) sa)
                        (get_sh_basis_from_vector v))) as [cs [Hcs Hlen]].
    exists cs. rewrite Hcs, <- app_assoc. split; [reflexivity|].
    rewrite Hlen. apply sh_add_length.
Qed.

Lemma sh_samples_face (tex : Texture F) face x y :
  (face, x, y) ∈ sh_samples tex -> 0 <= face < z_size tex.
Proof.
  unfold sh_samples, range. intros Hin.
  apply list_elem_of_bind in Hin as [f [Hin Hf]].
  apply list_elem_of_bind in Hin as [x' [Hin Hx]].
  apply list_elem_of_bind in Hin as [y' [Hin Hy]].
  apply list_elem_of_singleton in Hin. injection Hin as -> -> ->.
  apply elem_of_seqZ in Hf. lia.
Qed.

End Raises.

Lemma calc_sphere_quadrant_area_Q_ok (libm : MathLib Q) (x y : Q) :
  exists v, calc_sphere_quadrant_area libm x y = Ok v.
Proof.
  unfold calc_sphere_quadrant_area, py_sqrt.
  assert (Qltb (x * x + y * y + 1) 0 = false) as Hs
    by (apply Qltb_ge, Q_sqr_sum_nonneg).
  change ((x * x + y * y + f1 <? f0)%F) with (Qltb (x * x + y * y + 1) 0).
  rewrite Hs. eexists; reflexivity.
Qed.

Lemma calc_solid_angle_Q_ok (libm : MathLib Q) (invdim : Q) (x y : Z) :
  exists v, calc_solid_angle libm invdim x y = Ok v.
Proof.
  unfold calc_solid_angle. cbv zeta.
  repeat match goal with |- context [calc_sphere_quadrant_area libm ?a ?b] =>
    let v := fresh "v" in let Hv := fresh "Hv" in
    destruct (calc_sphere_quadrant_area_Q_ok libm a b) as [v Hv]; rewrite Hv;
    cbn [mbind result_bind] end.
  eexists; reflexivity.
Qed.

(** C5.  For a readable cube map of six square faces of size 2 or more,
    the texel loop reads every texel of the six faces and leaves nine
    accumulators [c0 .. c8]; the function returns exactly the nine vectors
    [c0 * a0], [c1 * a1], [c2 * a1], [c3 * a1], [c4 * a2], [c5 * a2],
    [c6 * a2], [c7 * a2] and [c8] unscaled, in this order, where [a0],
    [a1], [a2] are the code's six-decimal constants for pi, 2 pi / 3 and
    pi / 4. *)
Theorem sh_convolution (libm : MathLib Q) (tex : Texture Q) (peeker : TexturePeeker Q) :
  z_size tex = 6 -> x_size tex = y_size tex ->
  might_have_ram_image tex = true -> peek tex = Some peeker ->
  2 <= x_size tex ->
  exists c0 c1 c2 c3 c4 c5 c6 c7 c8,
    let reads := (fun s => (s.1.2, s.2, s.1.1)) <$> sh_samples tex in
    sh_loop libm peeker (x_size tex) (1 / inject_Z (x_size tex))%Q (sh_samples tex) []
            (replicate 9 v3_zero)
    = (reads, Ok [c0; c1; c2; c3; c4; c5; c6; c7; c8])
    /\ get_sh_coeffs_from_cube_map libm tex
       = (reads,
          Ok [v3_scale c0 sh_a0;
              v3_scale c1 sh_a1; v3_scale c2 sh_a1; v3_scale c3 sh_a1;
              v3_scale c4 sh_a2; v3_scale c5 sh_a2; v3_scale c6 sh_a2; v3_scale c7 sh_a2;
              c8])
    /\ (sh_a0 == 3141593 # 1000000)%Q /\ (sh_a1 == 2094395 # 1000000)%Q
    /\ (sh_a2 == 785398 # 1000000)%Q.
Proof.
  intros Hz Hxy Hram Hpeek Hdim.
  destruct (sh_loop_ok libm peeker (x_size tex) (1 / inject_Z (x_size tex))%Q
              (sh_samples tex)) with (log := @nil (Z * Z * Z))
              (shcoeffs := replicate 9 (@v3_zero Q _)) as [cs [Hcs Hlen]].
  { intros face x y Hin. split; [apply calc_solid_angle_Q_ok|].
    apply sh_samples_face in Hin. apply calc_vector_Q_ok; lia. }
  rewrite length_replicate in Hlen.
  destruct (length_9 cs Hlen) as (c0 & c1 & c2 & c3 & c4 & c5 & c6 & c7 & c8 & ->).
  exists c0, c1, c2, c3, c4, c5, c6, c7, c8. cbv zeta.
  cbn [app] in Hcs. split; [exact Hcs|]. split; [|repeat split].
  unfold get_sh_coeffs_from_cube_map.
  rewrite Hz, <- Hxy, Z.eqb_refl, Z.eqb_refl, Hram, Hpeek. cbn [negb].
  change (@f1 Q _) with (@f_of_Z Q _ 1). rewrite Q_py_div_Z by lia.
  change (inject_Z 1) with 1%Q. rewrite Hcs. reflexivity.
Qed.

Lemma sh_convolution_witness :
  exists c0 c1 c2 c3 c4 c5 c6 c7 c8 : LVector3 Q,
    get_sh_coeffs_from_cube_map libm_Q (white_cube 2)
    = ((fun s => (s.1.2, s.2, s.1.1)) <$> sh_samples (white_cube (F:=Q) 2),
       Ok [v3_scale c0 sh_a0;
           v3_scale c1 sh_a1; v3_scale c2 sh_a1; v3_scale c3 sh_a1;
           v3_scale c4 sh_a2; v3_scale c5 sh_a2; v3_scale c6 sh_a2; v3_scale c7 sh_a2;
           c8]).
Proof.
  destruct (sh_convolution libm_Q (white_cube 2) white_peeker) as
    (c0 & c1 & c2 & c3 & c4 & c5 & c6 & c7 & c8 & _ & Hr & _);
    [reflexivity | reflexivity | reflexivity | reflexivity | simpl; lia |].
  exists c0, c1, c2, c3, c4, c5, c6, c7, c8. exact Hr.
Defined.

(** A face of size 1 passes the three checks; the first texel is read and
    [calc_vector] then raises [ZeroDivisionError]. *)
Example get_sh_coeffs_dim1 :
  get_sh_coeffs_from_cube_map libm_Q (white_cube 1) = ([(0, 0, 0)], Raise ZeroDivisionError).
Proof. reflexivity. Qed.

(** ** GGX importance sampling *)

(** The absolute value of line 181 changes nothing: the up vector is +Z
    exactly when [normal.z < 0.999]. *)
Lemma ggx_upvec_Q (normal : LVector3 Q) :
  ggx_upvec normal =
    if Qltb (v3z normal) (999 # 1000) then V3 0%Q 0%Q 1%Q else V3 1%Q 0%Q 0%Q.
Proof.
  unfold ggx_upvec.
  change (v3z normal <? f_dec 999 3)%F with (Qltb (v3z normal) (999 # 1000)).
  destruct (Qltb (v3z normal) (999 # 1000)); reflexivity.
Qed.

(** C3.  At the normal (0, 0, -1), parallel to the Z axis, the code takes
    +Z as up vector, not +X: [abs(normal.z < 0.999)] is [abs(True)].  The
    tangent, the normalized cross product of the up vector and the normal,
    is then the zero vector.  The same up vector is taken for every normal
    with [normal.z < 0.999], those near -Z included. *)
Theorem ggx_upvec_near_minus_Z :
  ggx_upvec (V3 0 0 (-1))%float = V3 0%float 0%float 1%float
  /\ (forall libm : MathLib float,
        v3_normalized libm (v3_cross (ggx_upvec (V3 0 0 (-1))%float) (V3 0 0 (-1))%float)
        = v3_zero)
  /\ (forall nx ny nz : Q, (nz < 999 # 1000)%Q ->
        ggx_upvec (V3 nx ny nz) = V3 0%Q 0%Q 1%Q).
Proof.
  split; [reflexivity|]. split; [intros libm; reflexivity|].
  intros nx ny nz Hz. rewrite ggx_upvec_Q. cbn [v3z].
  apply Qltb_lt in Hz. rewrite Hz. reflexivity.
Qed.

(** The other branch: +X for a normal at +Z. *)
Example ggx_upvec_plus_Z :
  ggx_upvec (V3 0 0 1)%float = V3 1%float 0%float 0%float.
Proof. reflexivity. Qed.

(** ** Prefiltering the environment map *)

Section Filter.
Context {F : Type} `{FloatOps F} (libm : MathLib F).

Lemma filter_body_rejected pos normal view envmap roughness num_samples acc idx hvec light :
  sample_light libm normal view roughness num_samples idx = Ok (hvec, light) ->
  accepted (v3_dot normal light) = false ->
  filter_body libm pos normal view envmap roughness num_samples acc idx = Ok acc.
Proof.
  intros Hs Hr. unfold filter_body. destruct acc as [retval totweight].
  rewrite Hs. cbn [mbind result_bind]. unfold accepted in Hr. rewrite Hr. reflexivity.
Qed.

(** With every sample rejected, the result is the quotient of the zero
    vector by the zero weight. *)
Lemma filter_sample_unguarded pos envmap roughness num_samples :
  (forall idx, 0 <= idx < num_samples ->
     exists hvec light,
       sample_light libm (v3_normalized libm pos) (v3_normalized libm pos)
                    roughness num_samples idx = Ok (hvec, light)
       /\ accepted (v3_dot (v3_normalized libm pos) light) = false) ->
  filter_sample libm pos envmap roughness num_samples = Ok (v3_div v3_zero f0).
Proof.
  intros Hrej. unfold filter_sample. cbv zeta.
  rewrite for_each_unchanged; [reflexivity|].
  intros idx Hidx. apply elem_of_seqZ in Hidx.
  destruct (Hrej idx) as (hvec & light & Hs & Hr); [lia|].
  eapply filter_body_rejected; eassumption.
Qed.

End Filter.

Lemma nan_vector_not_zero :
  Ok (V3 nan nan nan) <> Ok (v3_zero (F:=float)).
Proof.
  intros Heq.
  apply (f_equal (fun r : result (LVector3 float) =>
                    match r with
                    | Ok v => PrimFloat.is_nan (v3x v)
                    | _ => false
                    end)) in Heq.
  vm_compute in Heq. discriminate Heq.
Qed.

(** C2, as stated, fails: with no sample at all, and with the single
    sample of the zero direction rejected, the total weight is zero and
    [filter_sample] returns the vector of three NaN, not a zero color. *)
Lemma filter_sample_no_samples :
  (forall libm : MathLib float,
     filter_sample libm (V3 0 0 1)%float white_peeker 0.5%float 0 = Ok (V3 nan nan nan))
  /\ filter_sample libm_at_zero (V3 0 0 0)%float white_peeker 0.5%float 1
     = Ok (V3 nan nan nan)
  /\ Ok (V3 nan nan nan) <> Ok (v3_zero (F:=float)).
Proof.
  split; [intros libm; reflexivity|]. split; [reflexivity | exact nan_vector_not_zero].
Qed.

(** C2, amended.  If every sample of [filter_sample] is rejected, the
    final division is not guarded: no exception is raised, and the result
    is the zero vector divided by the zero total weight, three NaN on
    binary64. *)
Theorem filter_sample_all_rejected (libm : MathLib float) (pos : LVector3 float)
    (envmap : TexturePeeker float) (roughness : float) (num_samples : Z) :
  let normal := v3_normalized libm pos in
  (forall idx, 0 <= idx < num_samples ->
     exists hvec light,
       sample_light libm normal normal roughness num_samples idx = Ok (hvec, light)
       /\ accepted (v3_dot normal light) = false) ->
  filter_sample libm pos envmap roughness num_samples = Ok (V3 nan nan nan).
Proof.
  intros normal Hrej. rewrite filter_sample_unguarded by exact Hrej. reflexivity.
Qed.

Lemma filter_sample_all_rejected_witness :
  filter_sample libm_at_zero (V3 0 0 0)%float white_peeker 0.5%float 1
  = Ok (V3 nan nan nan).
Proof.
  apply (filter_sample_all_rejected libm_at_zero (V3 0 0 0)%float white_peeker 0.5%float 1).
  intros idx Hidx. assert (idx = 0) as -> by lia.
  eexists _, _. split; [vm_compute; reflexivity | vm_compute; reflexivity].
Defined.

(** ** BRDF integration *)

Section BRDF.
Context {F : Type} `{FloatOps F} (libm : MathLib F).

Lemma py_max_idem (a b : F) : py_max (py_max a b) b = py_max a b.
Proof.
  unfold py_max. destruct (a <? b)%F eqn:Hab.
  - destruct (b <? b)%F; reflexivity.
  - rewrite Hab. reflexivity.
Qed.

(** A rejected sample leaves both accumulators as they are. *)
Lemma brdf_body_rejected normal view ndotv roughness num_samples retval idx hvec light :
  sample_light libm normal view roughness num_samples idx = Ok (hvec, light) ->
  accepted (v3z light) = false ->
  brdf_body libm normal view ndotv roughness num_samples retval idx = Ok retval.
Proof.
  intros Hs Hr. unfold brdf_body. rewrite Hs. cbn [mbind result_bind].
  unfold accepted in Hr. rewrite Hr. reflexivity.
Qed.

(** C6, amended.  Let [floor = max(ndotv, 0.0001)] and let the square
    root of [1 - floor * floor] be defined (it is for [ndotv <= 1]), with
    [samples idx] the half vector and the light direction of sample
    [idx].  Then [integrate_brdf] returns what the loop over the samples
    with [max(light.z, 0) > 0] alone returns, where each of them adds
    [(1 - fresnel) * geom_vis] to the first accumulator and
    [fresnel * geom_vis] to the second, with
    [geom_vis = geom * vdoth / (ndoth * floor)] and
    [fresnel = pow(1 - vdoth, 5)], the view vector being
    [(sqrt(1 - floor * floor), 0, floor)]; the other samples add nothing;
    both accumulators are divided by [num_samples], the number of all
    samples.  The result is that of the clamped value. *)
Theorem integrate_brdf_spec (ndotv roughness : F) (num_samples : Z) (s : F)
    (samples : Z -> LVector3 F * LVector3 F) :
  let floor := py_max ndotv brdf_floor in
  let view := V3 s f0 floor in
  let normal := V3 f0 f0 f1 in
  py_sqrt libm (f1 - floor * floor)%F = Ok s ->
  (forall idx, 0 <= idx < num_samples ->
     sample_light libm normal view roughness num_samples idx = Ok (samples idx)) ->
  integrate_brdf libm ndotv roughness num_samples
  = (retval ← for_each
       (fun retval idx =>
          let ndoth := py_max (v3z (samples idx).1) f0 in
          let vdoth := py_max (v3_dot view (samples idx).1) f0 in
          geom ← geometry_smith normal view (samples idx).2 roughness;
          geom_vis ← py_div (geom * vdoth)%F (ndoth * floor)%F;
          let fresnel := m_pow libm (f1 - vdoth)%F (f_of_Z 5) in
          Ok (V2 (v2x retval + (f1 - fresnel) * geom_vis)%F
                 (v2y retval + fresnel * geom_vis)%F))
       (List.filter (fun idx => accepted (v3z (samples idx).2)) (range num_samples))
       (V2 f0 f0);
     Ok (V2 (v2x retval / f_of_Z num_samples)%F (v2y retval / f_of_Z num_samples)%F))
  /\ (forall retval idx, 0 <= idx < num_samples ->
        accepted (v3z (samples idx).2) = false ->
        brdf_body libm normal view floor roughness num_samples retval idx = Ok retval)
  /\ integrate_brdf libm ndotv roughness num_samples
     = integrate_brdf libm floor roughness num_samples.
Proof.
  intros floor view normal Hs Hsamples. split; [|split].
  - unfold integrate_brdf. cbv zeta. fold floor. rewrite Hs. cbn [mbind result_bind].
    fold view normal.
    rewrite <- for_each_filter.
    rewrite (for_each_ext
      (brdf_body libm normal view floor roughness num_samples)
      (fun retval idx =>
         if accepted (v3z (samples idx).2)
         then brdf_accumulate libm normal view floor roughness
                              (samples idx).1 (samples idx).2 retval
         else Ok retval)); [reflexivity|].
    intros retval idx Hidx. apply elem_of_seqZ in Hidx.
    unfold brdf_body. rewrite Hsamples by lia.
    destruct (samples idx) as [hvec light]. reflexivity.
  - intros retval idx Hidx Hrej.
    apply (brdf_body_rejected _ _ _ _ _ _ _ (samples idx).1 (samples idx).2); [|exact Hrej].
    rewrite Hsamples by lia. destruct (samples idx); reflexivity.
  - unfold integrate_brdf. cbv zeta. subst floor.
    rewrite !py_max_idem. reflexivity.
Qed.

End BRDF.

(** In exact arithmetic the square root of line 205 is defined for every
    [ndotv <= 1]. *)
Lemma integrate_brdf_sqrt_defined (libm : MathLib Q) (ndotv : Q) :
  (ndotv <= 1)%Q ->
  py_sqrt libm (f1 - py_max ndotv brdf_floor * py_max ndotv brdf_floor)%F
  = Ok (m_sqrt libm (1 - py_max ndotv brdf_floor * py_max ndotv brdf_floor)%Q).
Proof.
  intros Hn. unfold py_sqrt.
  set (c := py_max ndotv brdf_floor).
  assert (0 <= c <= 1)%Q as [Hc0 Hc1].
  { subst c. unfold py_max. change (ndotv <? brdf_floor)%F with (Qltb ndotv (1 # 10000)).
    destruct (Qltb ndotv (1 # 10000)) eqn:E.
    - split; discriminate.
    - apply Qltb_ge in E. split; lra. }
  change (f1 - c * c <? f0)%F with (Qltb (1 - c * c) 0).
  assert (0 <= 1 - c * c)%Q as Hx by nra.
  apply Qltb_ge in Hx. rewrite Hx. reflexivity.
Qed.

(** C6, as stated, fails for [ndotv > 1]: the clamped value is [ndotv],
    [1 - ndotv * ndotv] is negative and [math.sqrt] raises [ValueError]
    before any sample is drawn; nothing is accumulated or divided. *)
Lemma integrate_brdf_above_1 :
  (forall libm : MathLib float,
     integrate_brdf libm 2%float 0.5%float 1024 = Raise ValueError)
  /\ (forall libm : MathLib Q,
        integrate_brdf libm 2%Q (1 # 2)%Q 1024 = Raise ValueError).
Proof. split; intros libm; reflexivity. Qed.

(** [integrate_brdf(0, 1, 4)]: the clamp is at work (0 becomes 0.0001),
    sample 3 is rejected (its light direction points below the surface),
    and the three accepted samples are divided by 4. *)
Lemma integrate_brdf_spec_witness :
  (integrate_brdf libm_quarter_turns 0%float 1%float 4
   = (retval ← for_each
        (fun retval idx =>
           let view := V3 brdf_test_s 0%float brdf_floor in
           let ndoth := py_max (v3z (brdf_test_samples idx).1) 0%float in
           let vdoth := py_max (v3_dot view (brdf_test_samples idx).1) 0%float in
           geom ← geometry_smith (V3 0 0 1)%float view (brdf_test_samples idx).2 1%float;
           geom_vis ← py_div (geom * vdoth)%float (ndoth * brdf_floor)%float;
           let fresnel := m_pow libm_quarter_turns (1 - vdoth)%float 5%float in
           Ok (V2 (v2x retval + (1 - fresnel) * geom_vis)%float
                  (v2y retval + fresnel * geom_vis)%float))
        [0; 1; 2] (V2 0%float 0%float);
      Ok (V2 (v2x retval / 4)%float (v2y retval / 4)%float)))
  /\ brdf_body libm_quarter_turns (V3 0 0 1)%float (V3 brdf_test_s 0%float brdf_floor)
       brdf_floor 1%float 4 (V2 1 2)%float 3 = Ok (V2 1 2)%float
  /\ integrate_brdf libm_quarter_turns 0%float 1%float 4
     = integrate_brdf libm_quarter_turns brdf_floor 1%float 4.
Proof.
  assert (py_sqrt libm_quarter_turns
            (f1 - py_max 0%float brdf_floor * py_max 0%float brdf_floor)%F
          = Ok brdf_test_s) as Hs by (vm_compute; reflexivity).
  assert (forall idx, 0 <= idx < 4 ->
            sample_light libm_quarter_turns (V3 f0 f0 f1)
              (V3 brdf_test_s f0 (py_max 0%float brdf_floor)) 1%float 4 idx
            = Ok (brdf_test_samples idx)) as Hsamples.
  { intros idx Hidx.
    assert (idx = 0 \/ idx = 1 \/ idx = 2 \/ idx = 3) as [-> | [-> | [-> | ->]]] by lia;
      vm_compute; reflexivity. }
  destruct (integrate_brdf_spec libm_quarter_turns 0%float 1%float 4
              brdf_test_s brdf_test_samples Hs Hsamples) as (Hloop & Hrej & Hclamp).
  split; [exact Hloop|]. split; [|exact Hclamp].
  apply (Hrej (V2 1 2)%float 3); [lia | vm_compute; reflexivity].
Defined.

(** The value of [integrate_brdf(0, 1, 4)]: three accepted samples, divided
    by 4. *)
Example integrate_brdf_0_1_4 :
  integrate_brdf libm_quarter_turns 0%float 1%float 4
  = Ok (V2 0x1.fee5d0abae953p-2 0x1.1a30158c72791p-10)%float.
Proof. reflexivity. Qed.

(** The floor at work: below 0.0001 the result is that of 0.0001. *)
Example integrate_brdf_floor :
  integrate_brdf libm_at_zero 0%float 0.5%float 1
  = integrate_brdf libm_at_zero brdf_floor 0.5%float 1.
Proof. reflexivity. Qed.

(** ** The BRDF lookup table *)

Section LUT.
Context {F : Type} `{FloatOps F} (libm : MathLib F).

Lemma lut_texels_spec (lutsize y x : Z) :
  (y, x) ∈ lut_texels lutsize <-> 0 <= y < lutsize /\ 0 <= x < lutsize.
Proof.
  unfold lut_texels, range. rewrite list_elem_of_bind. split.
  - intros [y' [Hin Hy]]. apply list_elem_of_bind in Hin as [x' [Hin Hx]].
    apply list_elem_of_singleton in Hin. injection Hin as -> ->.
    apply elem_of_seqZ in Hy, Hx. lia.
  - intros [Hy Hx]. exists y. split; [|apply elem_of_seqZ; lia].
    apply list_elem_of_bind. exists x. split; [left | apply elem_of_seqZ; lia].
Qed.

(** Two texels of the table do not share a float. *)
Lemma lut_offset_inj (lutsize : Z) (a b : Z * Z) :
  0 <= a.2 < lutsize -> 0 <= b.2 < lutsize ->
  a <> b ->
  lut_offset lutsize a <> lut_offset lutsize b
  /\ lut_offset lutsize a + 4 <> lut_offset lutsize b
  /\ lut_offset lutsize a <> lut_offset lutsize b + 4.
Proof.
  destruct a as [ya xa], b as [yb xb]. unfold lut_offset. cbn [fst snd].
  intros Ha Hb Hne.
  assert (ya * lutsize + xa <> yb * lutsize + xb) as Hk.
  { intros Heq. apply Hne.
    assert (ya = yb) as -> by nia. f_equal. lia. }
  lia.
Qed.

Lemma lut_write_other lutsize vals (xs : list (Z * Z)) (k : Z) :
  (forall a, a ∈ xs -> lut_offset lutsize a <> k /\ lut_offset lutsize a + 4 <> k) ->
  forall handle : gmap Z F, foldl (lut_write lutsize vals) handle xs !! k = handle !! k.
Proof.
  induction xs as [|a xs IH]; intros Hk handle; [reflexivity|].
  cbn [foldl]. rewrite IH by (intros a' Ha'; apply Hk; right; exact Ha').
  destruct (Hk a) as [H1 H2]; [left|].
  unfold lut_write, pack_into_ff. rewrite !lookup_insert_ne by assumption. reflexivity.
Qed.

(** The last write to a texel is the only one. *)
Lemma lut_write_texel lutsize vals (xs : list (Z * Z)) (t : Z * Z) :
  (forall a, a ∈ xs -> 0 <= a.2 < lutsize) -> t ∈ xs ->
  forall handle : gmap Z F,
    foldl (lut_write lutsize vals) handle xs !! lut_offset lutsize t
    = Some (v2y (vals t.2 t.1))
    /\ foldl (lut_write lutsize vals) handle xs !! (lut_offset lutsize t + 4)
       = Some (v2x (vals t.2 t.1)).
Proof.
  induction xs as [|a xs IH]; intros Hdom Hin handle; [inversion Hin|].
  cbn [foldl].
  destruct (decide (t ∈ xs)) as [Hin'|Hnin].
  - apply IH; [intros a' Ha'; apply Hdom; right; exact Ha' | exact Hin'].
  - assert (a = t) as ->.
    { apply elem_of_cons in Hin as [->|?]; [reflexivity | contradiction]. }
    assert (forall b, b ∈ xs ->
              lut_offset lutsize b <> lut_offset lutsize t
              /\ lut_offset lutsize b + 4 <> lut_offset lutsize t
              /\ lut_offset lutsize b <> lut_offset lutsize t + 4) as Hsep.
    { intros b Hb. apply lut_offset_inj.
      - apply Hdom. right. exact Hb.
      - apply Hdom. left.
      - intros ->. contradiction. }
    split; rewrite lut_write_other.
    + unfold lut_write, pack_into_ff.
      rewrite lookup_insert_ne by lia. apply lookup_insert_eq.
    + intros b Hb. destruct (Hsep b Hb) as (? & ? & ?). split; assumption.
    + unfold lut_write, pack_into_ff. apply lookup_insert_eq.
    + intros b Hb. destruct (Hsep b Hb) as (? & ? & ?). split; lia.
Qed.

(** C7.  For [lutsize > 0], if [integrate_brdf(x / lutsize, y / lutsize,
    num_samples)] returns [vals x y] for every texel, [gen_brdf_lut]
    returns a table in which the 8 bytes of texel [(x, y)], at byte offset
    [(y * lutsize + x) * 8], hold first the second component of [vals x y]
    (the bias) and then its first component (the scale). *)
Theorem gen_brdf_lut_texels (lutsize num_samples : Z) (vals : Z -> Z -> LVector2 F) :
  0 < lutsize ->
  (forall x y, 0 <= x < lutsize -> 0 <= y < lutsize ->
     integrate_brdf libm (f_of_Z x / f_of_Z lutsize)%F (f_of_Z y / f_of_Z lutsize)%F
                    num_samples = Ok (vals x y)) ->
  exists handle : gmap Z F,
    gen_brdf_lut libm lutsize num_samples = Ok handle
    /\ forall x y, 0 <= x < lutsize -> 0 <= y < lutsize ->
         handle !! ((y * lutsize + x) * 8) = Some (v2y (vals x y))
         /\ handle !! ((y * lutsize + x) * 8 + 4) = Some (v2x (vals x y)).
Proof.
  intros Hl Hvals.
  exists (foldl (lut_write lutsize vals) ∅ (lut_texels lutsize)). split.
  - unfold gen_brdf_lut. apply for_each_pure.
    intros handle [y x] Hin. apply lut_texels_spec in Hin as [Hy Hx].
    unfold lut_body, py_int_div. destruct (Z.eqb_spec lutsize 0); [lia|].
    cbn [mbind result_bind]. rewrite Hvals by lia. reflexivity.
  - intros x y Hx Hy.
    apply (lut_write_texel lutsize vals (lut_texels lutsize) (y, x)).
    + intros [ya xa] Ha. apply lut_texels_spec in Ha. cbn [snd]. lia.
    + apply lut_texels_spec. lia.
Qed.

End LUT.

Lemma gen_brdf_lut_texels_witness :
  exists handle : gmap Z float,
    gen_brdf_lut libm_at_zero 2 1 = Ok handle
    /\ forall x y, 0 <= x < 2 -> 0 <= y < 2 ->
         handle !! ((y * 2 + x) * 8) = Some (v2y (lut_test_vals x y))
         /\ handle !! ((y * 2 + x) * 8 + 4) = Some (v2x (lut_test_vals x y)).
Proof.
  apply (gen_brdf_lut_texels libm_at_zero 2 1 lut_test_vals); [lia|].
  intros x y Hx Hy.
  assert (x = 0 \/ x = 1) as [-> | ->] by lia;
    (assert (y = 0 \/ y = 1) as [-> | ->] by lia); vm_compute; reflexivity.
Defined.

(** * Further properties *)

(** ** Facts on exact arithmetic and on loops *)

Lemma Q_of_Z_pos (d : Z) : 0 < d -> (0 < inject_Z d)%Q.
Proof. intros Hd. change 0%Q with (inject_Z 0). rewrite <- Zlt_Qlt. exact Hd. Qed.

Lemma Q_sqr_nonneg (x : Q) : (0 <= x * x)%Q.
Proof. destruct x as [a b]. unfold Qle, Qmult; simpl. nia. Qed.

Lemma Q_py_div_pos (a b : Q) : (0 < b)%Q -> py_div a b = Ok (a / b)%Q.
Proof.
  intros Hb. unfold py_div.
  change (b =? f0)%F with (Qeq_bool b 0).
  destruct (Qeq_bool b 0) eqn:E; [|reflexivity].
  apply Qeq_bool_iff in E. lra.
Qed.

Lemma Q_py_div_zero (a b : Q) : (b == 0)%Q -> py_div a b = Raise ZeroDivisionError.
Proof.
  intros Hb. unfold py_div.
  change (b =? f0)%F with (Qeq_bool b 0).
  apply Qeq_bool_iff in Hb. rewrite Hb. reflexivity.
Qed.

Lemma Q_py_sqrt_nonneg (libm : MathLib Q) (x : Q) :
  (0 <= x)%Q -> py_sqrt libm x = Ok (m_sqrt libm x).
Proof.
  intros Hx. unfold py_sqrt. change (x <? f0)%F with (Qltb x 0).
  apply Qltb_ge in Hx. rewrite Hx. reflexivity.
Qed.

Lemma Q_py_sqrt_neg (libm : MathLib Q) (x : Q) :
  (x < 0)%Q -> py_sqrt libm x = Raise ValueError.
Proof.
  intros Hx. unfold py_sqrt. change (x <? f0)%F with (Qltb x 0).
  apply Qltb_lt in Hx. rewrite Hx. reflexivity.
Qed.

Lemma Q_py_max_pos (d : Q) : (0 < d)%Q -> py_max d f0 = d.
Proof.
  intros Hd. unfold py_max. change (d <? f0)%F with (Qltb d 0).
  apply Qlt_le_weak, Qltb_ge in Hd. rewrite Hd. reflexivity.
Qed.

Lemma Q_py_max_nonpos (d : Q) : (d <= 0)%Q -> (py_max d f0 == 0)%Q.
Proof.
  intros Hd. unfold py_max. change (d <? f0)%F with (Qltb d 0).
  destruct (Qltb d 0) eqn:E; [reflexivity|]. apply Qltb_ge in E. lra.
Qed.

(** Commutativity in [Q] holds up to equality of the fractions
    themselves. *)
Lemma Qmult_comm_eq (x y : Q) : (x * y)%Q = (y * x)%Q.
Proof.
  destruct x as [a b], y as [c d]. unfold Qmult; simpl.
  rewrite (Z.mul_comm a c), (Pos.mul_comm b d). reflexivity.
Qed.

Lemma Qplus_comm_eq (x y : Q) : (x + y)%Q = (y + x)%Q.
Proof.
  destruct x as [a b], y as [c d]. unfold Qplus; simpl.
  rewrite (Z.add_comm (a * Z.pos d) (c * Z.pos b)), (Pos.mul_comm b d). reflexivity.
Qed.

Section MoreLoops.
Context {S A : Type}.

Lemma for_each_invariant (P : S -> Prop) (body : S -> A -> result S) (xs : list A) :
  (forall s x s', x ∈ xs -> P s -> body s x = Ok s' -> P s') ->
  forall s s', P s -> for_each body xs s = Ok s' -> P s'.
Proof.
  induction xs as [|x xs IH]; intros Hb s s' Hs Hr.
  - injection Hr as <-. exact Hs.
  - cbn [for_each] in Hr. destruct (body s x) as [s1| |] eqn:E; try discriminate.
    cbn [mbind result_bind] in Hr.
    apply (IH (fun s0 x0 s0' Hin => Hb s0 x0 s0' (list_elem_of_further _ _ _ Hin)) s1 s');
      [|exact Hr].
    apply (Hb s x s1); [left | exact Hs | exact E].
Qed.

(** A loop with an element whose body never returns does not return. *)
Lemma for_each_raises (body : S -> A -> result S) (xs : list A) (x : A) :
  x ∈ xs -> (forall s s', body s x <> Ok s') ->
  forall s s', for_each body xs s <> Ok s'.
Proof.
  induction xs as [|a xs IH]; intros Hin Hx s s'; [inversion Hin|].
  cbn [for_each]. destruct (body s a) as [s1| |] eqn:E; cbn [mbind result_bind];
    try discriminate.
  apply elem_of_cons in Hin as [->|Hin].
  - destruct (Hx _ _ E).
  - apply IH; assumption.
Qed.

Lemma for_each_app (body : S -> A -> result S) (xs ys : list A) :
  forall s, for_each body (xs ++ ys) s = (s' ← for_each body xs s; for_each body ys s').
Proof.
  induction xs as [|x xs IH]; intros s; [reflexivity|].
  cbn [app for_each]. destruct (body s x) as [s1| |]; cbn [mbind result_bind];
    [apply IH | reflexivity..].
Qed.

Lemma for_each_state_app (body : S -> A -> result S) (xs ys : list A) :
  forall s s', for_each body xs s = Ok s' ->
    for_each_state body (xs ++ ys) s = for_each_state body ys s'.
Proof.
  induction xs as [|x xs IH]; intros s s' Hr.
  - injection Hr as <-. reflexivity.
  - cbn [app for_each for_each_state] in *.
    destruct (body s x) as [s1| |]; cbn [mbind result_bind] in Hr; try discriminate.
    apply IH. exact Hr.
Qed.

(** The result of a loop is its outcome, with the final state when it
    returns. *)
Lemma for_each_state_result (body : S -> A -> result S) (xs : list A) :
  forall s,
    for_each body xs s
    = match (for_each_state body xs s).2 with
      | Ok _ => Ok (for_each_state body xs s).1
      | Raise e => Raise e
      | Diverge => Diverge
      end.
Proof.
  induction xs as [|x xs IH]; intros s; [reflexivity|].
  cbn [for_each for_each_state].
  destruct (body s x) as [s1| |]; cbn [mbind result_bind]; [apply IH | reflexivity..].
Qed.

End MoreLoops.

(** ** The Hammersley sequence *)

(** One digit: the term added for [rem], and the room it leaves. *)
Lemma vdc_digit_bound (rem base denom : Z) :
  0 < denom -> 2 <= base -> 0 <= rem < base ->
  (0 <= inject_Z rem / inject_Z (denom * base))%Q
  /\ (inject_Z rem / inject_Z (denom * base) + 1 / inject_Z (denom * base)
      <= 1 / inject_Z denom)%Q.
Proof.
  intros Hd Hb Hr.
  destruct denom as [|p|p]; try lia. destruct base as [|b|b]; try lia.
  change (Z.pos p * Z.pos b) with (Z.pos (p * b)).
  change 1%Q with (inject_Z 1). rewrite <- !Qmake_Qdiv.
  unfold Qle, Qplus; simpl. split; nia.
Qed.

(** The loop adds less than one unit of the current denominator. *)
Lemma vdc_loop_range (base : Z) (fuel : nat) :
  2 <= base ->
  forall (idx : Z) (res : Q) (denom : Z) (v : Q),
    0 <= idx -> 0 < denom ->
    vdc_loop fuel idx base res denom = Ok v ->
    (res <= v < res + 1 / inject_Z denom)%Q.
Proof.
  intros Hb. induction fuel as [|fuel IH]; intros idx res denom v Hi Hd Hv.
  - simpl in Hv. destruct (idx =? 0); [|discriminate]. injection Hv as <-.
    pose proof (Q_of_Z_pos denom Hd).
    assert (0 < 1 / inject_Z denom)%Q by (apply Qlt_shift_div_l; lra). lra.
  - simpl in Hv. destruct (Z.eqb_spec idx 0) as [->|Hnz].
    + injection Hv as <-. pose proof (Q_of_Z_pos denom Hd).
      assert (0 < 1 / inject_Z denom)%Q by (apply Qlt_shift_div_l; lra). lra.
    + unfold py_divmod, py_int_div in Hv.
      destruct (Z.eqb_spec base 0); [lia|].
      destruct (Z.eqb_spec (denom * base) 0); [nia|].
      cbn [mbind result_bind] in Hv.
      apply IH in Hv; [| apply Z.div_pos; lia | nia].
      destruct (vdc_digit_bound (idx mod base) base denom Hd Hb) as [H0 H1];
        [apply Z.mod_pos_bound; lia|].
      cbn [f_add f_div f_of_Z Q_ops] in Hv. lra.
Qed.

Lemma van_der_corput_Q_range (idx base : Z) :
  0 <= idx -> 2 <= base ->
  exists v : Q, van_der_corput idx base = Ok v /\ (0 <= v < 1)%Q.
Proof.
  intros Hi Hb. destruct (van_der_corput_halts (F:=Q) idx base Hi Hb) as [v Hv].
  exists v. split; [exact Hv|]. unfold van_der_corput in Hv.
  apply vdc_loop_range in Hv; [|lia..].
  change (@f0 Q _) with 0%Q in Hv. change (1 / inject_Z 1)%Q with 1%Q in Hv. lra.
Qed.

Lemma hammersley_Q_range (i n : Z) :
  0 <= i < n ->
  exists u v : Q,
    hammersley i n = Ok (u, v) /\ (0 <= u < 1)%Q /\ (0 <= v < 1)%Q.
Proof.
  intros Hi.
  destruct (van_der_corput_Q_range i 2) as (v & Hv & Hrange); [lia..|].
  exists (inject_Z i / inject_Z n)%Q, v. split; [|split; [|exact Hrange]].
  - unfold hammersley, py_int_div. destruct (Z.eqb_spec n 0); [lia|].
    cbn [mbind result_bind]. rewrite Hv. reflexivity.
  - pose proof (Q_of_Z_pos n ltac:(lia)) as Hn.
    split; [apply Qle_shift_div_l; [exact Hn|] | apply Qlt_shift_div_r; [exact Hn|]].
    + rewrite Qmult_0_l. change 0%Q with (inject_Z 0). rewrite <- Zle_Qle. lia.
    + rewrite Qmult_1_l. rewrite <- Zlt_Qlt. lia.
Qed.

(** X1.  For an index [idx >= 0] and a base of 2 or more,
    [van_der_corput] returns a value in [0, 1); for [0 <= i < n],
    [hammersley(i, n)] returns a point of the unit square [0, 1) x [0, 1). *)
Theorem hammersley_unit_square (idx base i n : Z) :
  0 <= idx -> 2 <= base -> 0 <= i < n ->
  (exists v : Q, van_der_corput idx base = Ok v /\ (0 <= v < 1)%Q)
  /\ (exists u v : Q,
        hammersley i n = Ok (u, v) /\ (0 <= u < 1)%Q /\ (0 <= v < 1)%Q).
Proof.
  intros Hidx Hb Hi. split;
    [apply van_der_corput_Q_range; assumption | apply hammersley_Q_range; exact Hi].
Qed.

Lemma hammersley_unit_square_witness :
  exists u v : Q, hammersley 5 1024 = Ok (u, v) /\ (0 <= u < 1)%Q /\ (0 <= v < 1)%Q.
Proof. apply (hammersley_unit_square 7 3 5 1024); lia. Defined.

(** Two runs of the loop from the same index add the same digits, each
    scaled by its own denominator. *)
Lemma vdc_loop_scale (base : Z) (fuel : nat) :
  forall (idx : Z) (res1 res2 : Q) (denom1 denom2 : Z) (v1 v2 : Q),
    denom1 <> 0 -> denom2 <> 0 ->
    vdc_loop fuel idx base res1 denom1 = Ok v1 ->
    vdc_loop fuel idx base res2 denom2 = Ok v2 ->
    ((v1 - res1) * inject_Z denom1 == (v2 - res2) * inject_Z denom2)%Q.
Proof.
  induction fuel as [|fuel IH]; intros idx res1 res2 denom1 denom2 v1 v2 Hd1 Hd2 H1 H2.
  - simpl in H1, H2. destruct (idx =? 0); [|discriminate].
    injection H1 as <-. injection H2 as <-. lra.
  - simpl in H1, H2. destruct (idx =? 0).
    + injection H1 as <-. injection H2 as <-. lra.
    + unfold py_divmod, py_int_div in H1, H2.
      destruct (Z.eqb_spec base 0) as [|Hb]; [discriminate|].
      cbn [mbind result_bind] in H1, H2.
      destruct (Z.eqb_spec (denom1 * base) 0) as [|Hn1]; [discriminate|].
      destruct (Z.eqb_spec (denom2 * base) 0) as [|Hn2]; [discriminate|].
      cbn [mbind result_bind] in H1, H2.
      pose proof (IH _ _ _ _ _ _ _ Hn1 Hn2 H1 H2) as Heq.
      cbn [f_add f_div f_of_Z Q_ops] in Heq.
      rewrite !inject_Z_mult in Heq.
      assert (~ inject_Z base == 0)%Q as HB.
      { change 0%Q with (inject_Z 0). rewrite inject_Z_injective. exact Hb. }
      assert (~ inject_Z denom1 == 0)%Q as HD1.
      { change 0%Q with (inject_Z 0). rewrite inject_Z_injective. exact Hd1. }
      assert (~ inject_Z denom2 == 0)%Q as HD2.
      { change 0%Q with (inject_Z 0). rewrite inject_Z_injective. exact Hd2. }
      set (B := inject_Z base) in *. set (D1 := inject_Z denom1) in *.
      set (D2 := inject_Z denom2) in *. set (R := inject_Z (idx mod base)) in *.
      assert ((v1 - (res1 + R / (D1 * B))) * (D1 * B) == (v1 - res1) * D1 * B - R)%Q as E1
        by (field; split; assumption).
      assert ((v2 - (res2 + R / (D2 * B))) * (D2 * B) == (v2 - res2) * D2 * B - R)%Q as E2
        by (field; split; assumption).
      rewrite E1, E2 in Heq.
      assert ((v1 - res1) * D1 * B == (v2 - res2) * D2 * B)%Q as E3 by lra.
      apply (Qmult_inj_r _ _ B HB). exact E3.
Qed.

Section VanDerCorputMore.
Context {F : Type} `{FloatOps F}.

(** The first iteration of [van_der_corput] on a non-zero index. *)
Lemma van_der_corput_step (idx base : Z) (fuel : nat) (v : F) :
  idx <> 0 -> base <> 0 ->
  vdc_loop fuel (idx / base) base
           (f0 + f_of_Z (idx mod base) / f_of_Z (1 * base))%F (1 * base) = Ok v ->
  van_der_corput idx base = Ok v.
Proof.
  intros Hi Hb Hv.
  rewrite (van_der_corput_adequate idx base (S fuel)); simpl;
    destruct (Z.eqb_spec idx 0); try lia; unfold py_divmod, py_int_div;
    destruct (Z.eqb_spec base 0); try lia;
    destruct (Z.eqb_spec (1 * base) 0); try lia; cbn [mbind result_bind];
    rewrite Hv; [reflexivity | discriminate].
Qed.

(** X3.  For a negative index the loop of [van_der_corput] never ends,
    whatever the base of 1 or more (floor division keeps the index
    negative): [hammersley(idx, maxnum)] with [idx < 0] never returns,
    unless [maxnum] is 0, where the division [idx / maxnum] raises first. *)
Theorem hammersley_negative_index (idx maxnum : Z) :
  idx < 0 ->
  (forall (base : Z) (fuel : nat), 1 <= base -> vdc_loop fuel idx base f0 1 = Diverge)
  /\ (forall base, 1 <= base -> van_der_corput idx base = Diverge)
  /\ hammersley idx maxnum
     = if maxnum =? 0 then Raise ZeroDivisionError else Diverge.
Proof.
  intros Hi.
  assert (forall (base : Z) (fuel : nat), 1 <= base ->
            vdc_loop fuel idx base f0 1 = Diverge) as Hloop.
  { intros base fuel Hb. apply vdc_loop_never; [left; lia | lia]. }
  split; [exact Hloop|]. split.
  - intros base Hb. apply Hloop. exact Hb.
  - unfold hammersley, py_int_div. destruct (maxnum =? 0); [reflexivity|].
    cbn [mbind result_bind]. unfold van_der_corput. rewrite Hloop by lia. reflexivity.
Qed.

(** X4.  [van_der_corput(0, base)] is 0.0 for every base, base 0
    included; for a non-zero index, base 0 raises [ZeroDivisionError] in
    [divmod], and with base 1 or -1 the loop never ends. *)
Theorem van_der_corput_edge_bases (idx base : Z) :
  van_der_corput 0 base = Ok f0
  /\ (idx <> 0 -> van_der_corput idx 0 = Raise ZeroDivisionError)
  /\ (idx <> 0 -> (base = 1 \/ base = -1) ->
      forall fuel, vdc_loop fuel idx base f0 1 = Diverge).
Proof.
  split; [reflexivity|]. split.
  - intros Hi. unfold van_der_corput, vdc_fuel.
    destruct (Z.to_nat (2 * Z.abs idx + 2)) as [|n] eqn:E; [lia|].
    simpl. destruct (Z.eqb_spec idx 0); [contradiction | reflexivity].
  - intros Hi Hb fuel. apply vdc_loop_never; [right; split; assumption | lia].
Qed.

End VanDerCorputMore.

Lemma hammersley_negative_index_witness :
  hammersley (F:=float) (-1) 4 = Diverge.
Proof. apply (hammersley_negative_index (-1) 4). lia. Defined.

(** X2.  [van_der_corput] is the radical inverse: appending the digit [r]
    to the index [i] in base [base] puts [r] in front of the fraction,
    [van_der_corput(base * i + r) = (r + van_der_corput(i)) / base]. *)
Theorem van_der_corput_digit (base i r : Z) :
  2 <= base -> 0 <= i -> 0 <= r < base ->
  exists v v' : Q,
    van_der_corput (base * i + r) base = Ok v
    /\ van_der_corput i base = Ok v'
    /\ (v == (inject_Z r + v') / inject_Z base)%Q.
Proof.
  intros Hb Hi Hr.
  destruct (van_der_corput_halts (F:=Q) i base) as [v' Hv']; [lia..|].
  destruct (van_der_corput_halts (F:=Q) (base * i + r) base) as [v Hv]; [nia | lia |].
  exists v, v'. split; [exact Hv|]. split; [exact Hv'|].
  pose proof (Q_of_Z_pos base ltac:(lia)) as HB.
  destruct (Z.eq_dec (base * i + r) 0) as [Hz|Hnz].
  - assert (i = 0) as -> by nia. assert (r = 0) as -> by lia.
    vm_compute in Hv'. injection Hv' as <-.
    rewrite Hz in Hv. vm_compute in Hv. injection Hv as <-.
    field. lra.
  - assert ((base * i + r) / base = i) as Hq.
    { symmetry. apply (Z.div_unique_pos _ _ i r); lia. }
    assert ((base * i + r) mod base = r) as Hm.
    { symmetry. apply (Z.mod_unique_pos _ _ i r); lia. }
    destruct (vdc_loop_halts (F:=Q) base (vdc_fuel i) ltac:(lia) i
                (f0 + f_of_Z r / f_of_Z (1 * base))%F (1 * base)) as [w Hw];
      [lia | unfold vdc_fuel; lia | lia |].
    assert (van_der_corput (F:=Q) (base * i + r) base = Ok w) as Hw'.
    { apply (van_der_corput_step _ _ (vdc_fuel i)); [exact Hnz | lia |].
      rewrite Hq, Hm. exact Hw. }
    rewrite Hv in Hw'. injection Hw' as <-.
    unfold van_der_corput in Hv'.
    pose proof (vdc_loop_scale base (vdc_fuel i) i _ _ (1 * base) 1 _ _
                  ltac:(lia) ltac:(lia) Hw Hv') as Hs.
    cbn [f_add f_div f_of_Z Q_ops] in Hs. change (@f0 Q _) with 0%Q in Hs.
    rewrite Z.mul_1_l in Hs. change (inject_Z 1) with 1%Q in Hs.
    set (B := inject_Z base) in *. set (R := inject_Z r) in *.
    assert (v * B == v' + R)%Q as E.
    { assert ((v - (0 + R / B)) * B == v * B - R)%Q as E1 by (field; lra).
      rewrite E1 in Hs. lra. }
    apply (Qmult_inj_r _ _ B); [lra|]. rewrite E. field. lra.
Qed.

Lemma van_der_corput_digit_witness :
  exists v v' : Q,
    van_der_corput (2 * 2 + 1) 2 = Ok v
    /\ van_der_corput 2 2 = Ok v'
    /\ (v == (inject_Z 1 + v') / inject_Z 2)%Q.
Proof. apply (van_der_corput_digit 2 2 1); lia. Defined.

(** ** Direction, solid angle and basis *)

(** X5.  On the +Z face (index 4) of a face of size [dim >= 2], the two
    remapped coordinates of a texel are the first two components of the
    vector; the first lies in [0, 1] and is 0 only in column 0, the second
    in (-1/2, 1/2] and is 0 only in row 1: the remap of lines 30 and 31
    covers no negative x. *)
Theorem calc_vector_plus_Z_range (dim xloc yloc : Z) :
  2 <= dim -> 0 <= xloc < dim -> 0 <= yloc < dim ->
  exists xc yc : Q,
    calc_vector dim 4 xloc yloc = Ok (xc, yc, 1%Q)
    /\ (0 <= xc <= 1)%Q /\ (- (1 # 2) < yc <= 1 # 2)%Q
    /\ ((xc == 0)%Q <-> xloc = 0) /\ ((yc == 0)%Q <-> yloc = 1).
Proof.
  intros Hdim Hx Hy.
  exists (inject_Z xloc / inject_Z ((dim - 1) * 2 - 1))%Q,
         (inject_Z (1 - yloc) / inject_Z ((dim - 1) * 2))%Q.
  split.
  { unfold calc_vector. rewrite !Q_py_div_Z by lia. reflexivity. }
  assert (exists p, (dim - 1) * 2 - 1 = Z.pos p) as [p Hp]
    by (destruct ((dim - 1) * 2 - 1) as [|p|p] eqn:E; [lia | eauto | lia]).
  assert (exists q, (dim - 1) * 2 = Z.pos q) as [q Hq]
    by (destruct ((dim - 1) * 2) as [|q|q] eqn:E; [lia | eauto | lia]).
  rewrite Hp, Hq, <- !Qmake_Qdiv.
  unfold Qle, Qlt, Qeq; simpl. repeat split; lia.
Qed.

Lemma calc_vector_plus_Z_range_witness :
  exists xc yc : Q,
    calc_vector 4 4 3 2 = Ok (xc, yc, 1%Q)
    /\ (0 <= xc <= 1)%Q /\ (- (1 # 2) < yc <= 1 # 2)%Q
    /\ ((xc == 0)%Q <-> 3 = 0) /\ ((yc == 0)%Q <-> 2 = 1).
Proof. apply (calc_vector_plus_Z_range 4 3 2); lia. Defined.

Lemma calc_sphere_quadrant_area_comm (libm : MathLib Q) (x y : Q) :
  calc_sphere_quadrant_area libm x y = calc_sphere_quadrant_area libm y x.
Proof.
  unfold calc_sphere_quadrant_area. cbn [f_mul f_add Q_ops].
  rewrite (Qmult_comm_eq x y), (Qplus_comm_eq (x * x) (y * y)). reflexivity.
Qed.

(** X6.  In exact arithmetic [calc_solid_angle] never raises (the
    argument of every square root is 1 or more) and is symmetric in the
    texel coordinates: texel [(x, y)] and texel [(y, x)] have the same
    weight, whatever [atan2] and [sqrt] compute. *)
Theorem calc_solid_angle_symmetric (libm : MathLib Q) (invdim : Q) (x y : Z) :
  exists a b : Q,
    calc_solid_angle libm invdim x y = Ok a
    /\ calc_solid_angle libm invdim y x = Ok b
    /\ (a == b)%Q.
Proof.
  unfold calc_solid_angle. cbv zeta.
  set (s := ((f_of_Z x + f_dec 5 1) * f_of_Z 2 * invdim - f1)%F).
  set (t := ((f_of_Z y + f_dec 5 1) * f_of_Z 2 * invdim - f1)%F).
  rewrite (calc_sphere_quadrant_area_comm libm (t - invdim)%F (s - invdim)%F).
  rewrite (calc_sphere_quadrant_area_comm libm (t - invdim)%F (s + invdim)%F).
  rewrite (calc_sphere_quadrant_area_comm libm (t + invdim)%F (s - invdim)%F).
  rewrite (calc_sphere_quadrant_area_comm libm (t + invdim)%F (s + invdim)%F).
  destruct (calc_sphere_quadrant_area_Q_ok libm (s - invdim)%F (t - invdim)%F) as [a ->].
  destruct (calc_sphere_quadrant_area_Q_ok libm (s - invdim)%F (t + invdim)%F) as [b ->].
  destruct (calc_sphere_quadrant_area_Q_ok libm (s + invdim)%F (t - invdim)%F) as [c ->].
  destruct (calc_sphere_quadrant_area_Q_ok libm (s + invdim)%F (t + invdim)%F) as [d ->].
  cbn [mbind result_bind]. eexists _, _. split; [reflexivity|]. split; [reflexivity|].
  cbn [f_add f_sub Q_ops]. ring.
Qed.

(** X7.  Under the reflection of the direction through the origin the
    three linear terms of [get_sh_basis_from_vector] change sign, and the
    constant and the five quadratic terms are unchanged. *)
Theorem sh_basis_parity (x y z : Q) :
  Forall2 Qeq (get_sh_basis_from_vector (- x, - y, - z)%Q)
    (zip_with Qmult [1; -1; -1; -1; 1; 1; 1; 1; 1]%Q (get_sh_basis_from_vector (x, y, z))).
Proof.
  unfold get_sh_basis_from_vector. cbn [zip_with f_mul f_sub Q_ops].
  repeat (constructor; [ring|]). constructor.
Qed.

(** ** Spherical-harmonics projection of degenerate inputs *)

(** X8.  A readable cube map of six faces of size 0 or 1 passes the three
    checks and then fails with [ZeroDivisionError]: for size 0 in
    [1.0 / dim], before any texel is read; for size 1 in [calc_vector],
    after texel (0, 0) of face 0 has been read. *)
Theorem get_sh_coeffs_tiny_cube (libm : MathLib Q) (tex : Texture Q)
    (peeker : TexturePeeker Q) :
  z_size tex = 6 -> x_size tex = y_size tex ->
  might_have_ram_image tex = true -> peek tex = Some peeker ->
  (x_size tex = 0 ->
     get_sh_coeffs_from_cube_map libm tex = ([], Raise ZeroDivisionError))
  /\ (x_size tex = 1 ->
     get_sh_coeffs_from_cube_map libm tex = ([(0, 0, 0)], Raise ZeroDivisionError)).
Proof.
  intros Hz Hxy Hram Hpeek. split; intros Hdim.
  - unfold get_sh_coeffs_from_cube_map.
    rewrite Hz, <- Hxy, Hram, Hpeek, Hdim. reflexivity.
  - unfold get_sh_coeffs_from_cube_map.
    rewrite Hz, <- Hxy, Hram, Hpeek, Hdim. cbn [negb Z.eqb Pos.eqb].
    change (py_div f1 (f_of_Z 1)) with (Ok (1 / 1)%Q : result Q).
    unfold sh_samples. rewrite Hz, <- Hxy, Hdim.
    change (range 6 ≫= (fun face => range 1 ≫= (fun x => range 1 ≫= (fun y => [(face, x, y)]))))
      with [(0,0,0); (1,0,0); (2,0,0); (3,0,0); (4,0,0); (5,0,0)].
    cbn [sh_loop].
    destruct (calc_solid_angle_Q_ok libm (1 / 1)%Q 0 0) as [sa ->].
    reflexivity.
Qed.

Lemma get_sh_coeffs_tiny_cube_witness :
  get_sh_coeffs_from_cube_map libm_Q_unit (white_cube 1)
  = ([(0, 0, 0)], Raise ZeroDivisionError).
Proof.
  apply (get_sh_coeffs_tiny_cube libm_Q_unit (white_cube 1) white_peeker); reflexivity.
Defined.

Lemma sh_add_black (shcoeffs : list (LVector3 Q)) (color : LVector3 Q) (basis : list Q) :
  v3_is_zero color -> Forall v3_is_zero shcoeffs ->
  Forall v3_is_zero (sh_add shcoeffs color basis).
Proof.
  intros Hc. unfold sh_add. generalize (enumerate basis) as ivs.
  intros ivs. revert shcoeffs. induction ivs as [|iv ivs IH]; intros cs Hcs; [exact Hcs|].
  cbn [foldl]. apply IH. apply Forall_alter; [exact Hcs|].
  intros c _ Hz. destruct Hc as (Hx & Hy & Hz'), Hz as (Cx & Cy & Cz).
  unfold v3_is_zero, v3_eq, v3_add, v3_scale, v3_zero in *.
  cbn [v3x v3y v3z f_add f_mul Q_ops] in *. change (@f0 Q _) with 0%Q in *.
  rewrite Hx, Hy, Hz', Cx, Cy, Cz. repeat split; ring.
Qed.

Lemma sh_loop_black (libm : MathLib Q) (peeker : TexturePeeker Q) (dim : Z) (invdim : Q)
    (samples : list (Z * Z * Z)) :
  (forall x y z, v3_is_zero (c_xyz (fetch_pixel peeker x y z))) ->
  forall log shcoeffs log' shcoeffs',
    Forall v3_is_zero shcoeffs ->
    sh_loop libm peeker dim invdim samples log shcoeffs = (log', Ok shcoeffs') ->
    Forall v3_is_zero shcoeffs'.
Proof.
  intros Hblack. induction samples as [|[[face x] y] rest IH];
    intros log cs log' cs' Hcs Hl; cbn [sh_loop] in Hl.
  - injection Hl as _ <-. exact Hcs.
  - cbv zeta in Hl.
    destruct (calc_solid_angle libm invdim x y) as [sa| |]; cbn [mbind result_bind] in Hl;
      try discriminate.
    destruct (calc_vector dim face x y) as [vec| |]; cbn [mbind result_bind] in Hl;
      try discriminate.
    apply IH in Hl; [exact Hl|]. apply sh_add_black; [|exact Hcs].
    destruct (Hblack x y face) as (Hx & Hy & Hz).
    unfold v3_is_zero, v3_eq, v3_scale, v3_zero in *.
    cbn [v3x v3y v3z f_mul Q_ops] in *. change (@f0 Q _) with 0%Q in *.
    rewrite Hx, Hy, Hz. repeat split; ring.
Qed.

Lemma sh_convolve_black (shcoeffs : list (LVector3 Q)) :
  Forall v3_is_zero shcoeffs -> Forall v3_is_zero (sh_convolve shcoeffs).
Proof.
  assert (forall i a cs, Forall v3_is_zero cs -> Forall v3_is_zero (sh_scale_at i a cs))
    as Hstep.
  { intros i a cs Hcs. unfold sh_scale_at. apply Forall_alter; [exact Hcs|].
    intros c _ (Cx & Cy & Cz). unfold v3_is_zero, v3_eq, v3_scale, v3_zero in *.
    cbn [v3x v3y v3z f_mul Q_ops] in *. change (@f0 Q _) with 0%Q in *.
    rewrite Cx, Cy, Cz. repeat split; ring. }
  intros Hcs. unfold sh_convolve. repeat apply Hstep. exact Hcs.
Qed.

Lemma sh_convolve_length {F : Type} `{FloatOps F} (shcoeffs : list (LVector3 F)) :
  length (sh_convolve shcoeffs) = length shcoeffs.
Proof. unfold sh_convolve, sh_scale_at. rewrite !length_alter. reflexivity. Qed.

(** X9.  The projection of a black cube map (six readable square faces of
    size 2 or more, every texel zero) returns nine coefficient vectors,
    all zero. *)
Theorem get_sh_coeffs_black (libm : MathLib Q) (tex : Texture Q) (peeker : TexturePeeker Q) :
  z_size tex = 6 -> x_size tex = y_size tex ->
  might_have_ram_image tex = true -> peek tex = Some peeker ->
  2 <= x_size tex ->
  (forall x y z, v3_is_zero (c_xyz (fetch_pixel peeker x y z))) ->
  exists log shcoeffs,
    get_sh_coeffs_from_cube_map libm tex = (log, Ok shcoeffs)
    /\ length shcoeffs = 9%nat /\ Forall v3_is_zero shcoeffs.
Proof.
  intros Hz Hxy Hram Hpeek Hdim Hblack.
  destruct (sh_loop_ok libm peeker (x_size tex) (1 / inject_Z (x_size tex))%Q
              (sh_samples tex)) with (log := @nil (Z * Z * Z))
              (shcoeffs := replicate 9 (@v3_zero Q _)) as [cs [Hcs Hlen]].
  { intros face x y Hin. split; [apply calc_solid_angle_Q_ok|].
    apply sh_samples_face in Hin. apply calc_vector_Q_ok; lia. }
  rewrite length_replicate in Hlen.
  eexists _, (sh_convolve cs). split; [|split].
  - unfold get_sh_coeffs_from_cube_map.
    rewrite Hz, <- Hxy, Z.eqb_refl, Z.eqb_refl, Hram, Hpeek. cbn [negb].
    change (@f1 Q _) with (@f_of_Z Q _ 1). rewrite Q_py_div_Z by lia.
    change (inject_Z 1) with 1%Q. rewrite Hcs. reflexivity.
  - rewrite sh_convolve_length. exact Hlen.
  - apply sh_convolve_black.
    assert (v3_is_zero (@v3_zero Q _)) as Hzero by (repeat split; reflexivity).
    apply (sh_loop_black libm peeker _ _ _ Hblack _ _ _ _
             (Forall_replicate _ _ _ Hzero) Hcs).
Qed.

Lemma get_sh_coeffs_black_witness :
  exists log shcoeffs,
    get_sh_coeffs_from_cube_map libm_Q_unit (black_cube 2) = (log, Ok shcoeffs)
    /\ length shcoeffs = 9%nat /\ Forall v3_is_zero shcoeffs.
Proof.
  apply (get_sh_coeffs_black libm_Q_unit (black_cube 2) black_peeker);
    [reflexivity | reflexivity | reflexivity | reflexivity | simpl; lia |].
  intros x y z. repeat split; reflexivity.
Defined.

(** ** Sampling *)

Lemma importance_sample_ggx_Q_ok (libm : MathLib Q) (xi : Q * Q) (normal : LVector3 Q)
    (roughness : Q) :
  (0 <= xi.2 < 1)%Q ->
  (forall q : Q, 0 <= q <= 1 -> m_sqrt libm q * m_sqrt libm q <= 1)%Q ->
  exists hvec, importance_sample_ggx libm xi normal roughness = Ok hvec.
Proof.
  intros Hxi Hsqrt. unfold importance_sample_ggx. cbv zeta.
  cbn [f_mul f_div f_add f_sub f_of_Z Q_ops]. change (@f1 Q _) with 1%Q.
  set (a2 := (roughness * roughness * (roughness * roughness))%Q).
  pose proof (Q_sqr_nonneg (roughness * roughness)) as Ha. fold a2 in Ha.
  assert (0 <= a2 * xi.2)%Q as Hp by (apply Qmult_le_0_compat; lra).
  assert (1 + (a2 - 1) * xi.2 == (1 - xi.2) + a2 * xi.2)%Q as Hd by ring.
  assert (0 < 1 + (a2 - 1) * xi.2)%Q as Hden by lra.
  rewrite Q_py_div_pos by exact Hden. cbn [mbind result_bind].
  assert (0 <= (1 - xi.2) / (1 + (a2 - 1) * xi.2) <= 1)%Q as Hq.
  { split; [apply Qle_shift_div_l | apply Qle_shift_div_r]; lra. }
  rewrite Q_py_sqrt_nonneg by lra. cbn [mbind result_bind].
  pose proof (Hsqrt _ Hq) as Hc.
  rewrite Q_py_sqrt_nonneg by lra. cbn [mbind result_bind].
  eexists; reflexivity.
Qed.

(** X10.  [importance_sample_ggx] raises [ZeroDivisionError] when
    [1 + (alpha^2 - 1) * xi[1]] is zero (roughness 0 with [xi[1] = 1]);
    for [xi[1]] in [0, 1) it returns a vector for every roughness and
    normal, provided the square of [sqrt(q)] does not exceed 1 for [q] in
    [0, 1]. *)
Theorem importance_sample_ggx_domain (libm : MathLib Q) (xi : Q * Q)
    (normal : LVector3 Q) (roughness : Q) :
  let alpha := (roughness * roughness)%Q in
  ((1 + (alpha * alpha - 1) * xi.2 == 0)%Q ->
     importance_sample_ggx libm xi normal roughness = Raise ZeroDivisionError)
  /\ ((0 <= xi.2 < 1)%Q ->
      (forall q : Q, 0 <= q <= 1 -> m_sqrt libm q * m_sqrt libm q <= 1)%Q ->
      exists hvec, importance_sample_ggx libm xi normal roughness = Ok hvec).
Proof.
  intros alpha. split.
  - intros Hz. unfold importance_sample_ggx. cbv zeta.
    rewrite Q_py_div_zero; [reflexivity | exact Hz].
  - apply importance_sample_ggx_Q_ok.
Qed.

(** Roughness 0 at [xi = (0, 1)]. *)
Example importance_sample_ggx_mirror_edge :
  importance_sample_ggx libm_Q_unit (0, 1)%Q (V3 0 0 1)%Q 0%Q = Raise ZeroDivisionError.
Proof. reflexivity. Qed.

(** X11.  For every sample index [0 <= idx < num_samples] the half vector
    and the light direction of both sample loops are computed without an
    exception, for every normal, view direction and roughness, provided
    the square of [sqrt(q)] does not exceed 1 for [q] in [0, 1]. *)
Theorem sample_light_total (libm : MathLib Q) (normal view : LVector3 Q)
    (roughness : Q) (num_samples idx : Z) :
  0 <= idx < num_samples ->
  (forall q : Q, 0 <= q <= 1 -> m_sqrt libm q * m_sqrt libm q <= 1)%Q ->
  exists hvec light,
    sample_light libm normal view roughness num_samples idx = Ok (hvec, light).
Proof.
  intros Hidx Hsqrt. unfold sample_light.
  destruct (hammersley_Q_range idx num_samples Hidx) as (u & v & -> & Hu & Hv).
  cbn [mbind result_bind].
  destruct (importance_sample_ggx_Q_ok libm (u, v) normal roughness) as [hvec ->];
    [exact Hv | exact Hsqrt |].
  cbn [mbind result_bind]. eexists _, _. reflexivity.
Qed.

Lemma libm_Q_unit_sqrt (q : Q) :
  (0 <= q <= 1 -> m_sqrt libm_Q_unit q * m_sqrt libm_Q_unit q <= 1)%Q.
Proof.
  intros Hq. cbn [m_sqrt libm_Q_unit].
  assert (q * q <= 1 * q)%Q by (apply Qmult_le_compat_r; lra). lra.
Qed.

Lemma sample_light_total_witness :
  exists hvec light,
    sample_light libm_Q_unit (V3 0 0 1)%Q (V3 0 0 1)%Q (1 # 2)%Q 4 3 = Ok (hvec, light).
Proof.
  apply (sample_light_total libm_Q_unit (V3 0 0 1)%Q (V3 0 0 1)%Q (1 # 2)%Q 4 3);
    [lia | exact libm_Q_unit_sqrt].
Defined.

(** ** The geometry term *)

(** X12.  For [0 <= ndotv <= 1] and [roughness^2 <= 2], not both zero,
    [geometry_schlick_ggx] returns a value in [0, 1]. *)
Theorem geometry_schlick_ggx_range (ndotv roughness : Q) :
  (0 <= ndotv <= 1)%Q -> (roughness * roughness <= 2)%Q ->
  (0 < ndotv \/ ~ roughness == 0)%Q ->
  exists g : Q, geometry_schlick_ggx ndotv roughness = Ok g /\ (0 <= g <= 1)%Q.
Proof.
  intros Hn Hr Hpos. unfold geometry_schlick_ggx. cbv zeta.
  cbn [f_mul f_div f_add f_sub f_of_Z Q_ops]. change (@f1 Q _) with 1%Q.
  change (inject_Z 2) with 2%Q.
  set (k := (roughness * roughness / 2)%Q).
  pose proof (Q_sqr_nonneg roughness) as Hsq.
  assert (0 <= k <= 1)%Q as Hk.
  { unfold k. split; [apply Qle_shift_div_l | apply Qle_shift_div_r]; lra. }
  assert (0 <= k * (1 - ndotv))%Q as Hprod by (apply Qmult_le_0_compat; lra).
  assert (ndotv * (1 - k) + k == ndotv + k * (1 - ndotv))%Q as Hd by ring.
  assert (0 < ndotv * (1 - k) + k)%Q as Hden.
  { rewrite Hd. destruct Hpos as [Hp|Hp]; [lra|].
    assert (0 < k)%Q.
    { unfold k. apply Qlt_shift_div_l; [lra|]. rewrite Qmult_0_l.
      destruct (Qlt_le_dec 0 (roughness * roughness)) as [|Hle]; [assumption|].
      exfalso. apply Hp. assert (roughness * roughness == 0)%Q as Hz by lra.
      apply Qmult_integral in Hz. tauto. }
    destruct (Qlt_le_dec ndotv 1) as [Hlt|Hge].
    - assert (0 < k * (1 - ndotv))%Q by (apply Qmult_lt_0_compat; lra). lra.
    - assert (ndotv == 1)%Q as -> by lra. lra. }
  rewrite Q_py_div_pos by exact Hden. eexists. split; [reflexivity|]. split.
  - apply Qle_shift_div_l; lra.
  - apply Qle_shift_div_r; [exact Hden|]. lra.
Qed.

Lemma geometry_schlick_ggx_range_witness :
  exists g : Q, geometry_schlick_ggx (1 # 2) (1 # 2) = Ok g /\ (0 <= g <= 1)%Q.
Proof.
  apply (geometry_schlick_ggx_range (1 # 2) (1 # 2)); [lra | lra | left; lra].
Defined.

(** X13.  At roughness 0, [geometry_smith] raises [ZeroDivisionError]
    when [N.V <= 0] or [N.L <= 0] (the clamped cosine is 0 and so is the
    divisor), and returns 1 when both cosines are positive. *)
Theorem geometry_smith_mirror (normal view light : LVector3 Q) (roughness : Q) :
  (roughness == 0)%Q ->
  ((v3_dot normal view <= 0 \/ v3_dot normal light <= 0)%Q ->
     geometry_smith normal view light roughness = Raise ZeroDivisionError)
  /\ ((0 < v3_dot normal view)%Q -> (0 < v3_dot normal light)%Q ->
     exists g : Q, geometry_smith normal view light roughness = Ok g /\ (g == 1)%Q).
Proof.
  intros Hr.
  assert (forall x : Q, (x * (1 - roughness * roughness / 2) + roughness * roughness / 2 == x)%Q)
    as Hden by (intros x; rewrite Hr; field).
  assert (forall x : Q, (0 < x)%Q ->
            geometry_schlick_ggx x roughness
            = Ok (x / (x * (1 - roughness * roughness / 2) + roughness * roughness / 2))%Q)
    as Hok.
  { intros x Hx. unfold geometry_schlick_ggx. apply Q_py_div_pos.
    cbn [f_mul f_div f_add f_sub f_of_Z Q_ops]. change (@f1 Q _) with 1%Q.
    change (inject_Z 2) with 2%Q. rewrite Hden. exact Hx. }
  assert (forall x : Q, (x == 0)%Q ->
            geometry_schlick_ggx x roughness = Raise ZeroDivisionError) as Hbad.
  { intros x Hx. unfold geometry_schlick_ggx. apply Q_py_div_zero.
    cbn [f_mul f_div f_add f_sub f_of_Z Q_ops]. change (@f1 Q _) with 1%Q.
    change (inject_Z 2) with 2%Q. rewrite Hden. exact Hx. }
  split.
  - intros Hdots. unfold geometry_smith. cbv zeta.
    destruct (Qlt_le_dec 0 (v3_dot normal view)) as [Hv|Hv].
    + rewrite (Q_py_max_pos _ Hv), (Hok _ Hv). cbn [mbind result_bind].
      destruct Hdots as [Hd|Hd]; [lra|].
      rewrite (Hbad _ (Q_py_max_nonpos _ Hd)). reflexivity.
    + rewrite (Hbad _ (Q_py_max_nonpos _ Hv)). reflexivity.
  - intros Hv Hl. unfold geometry_smith. cbv zeta.
    rewrite (Q_py_max_pos _ Hv), (Q_py_max_pos _ Hl), (Hok _ Hv), (Hok _ Hl).
    cbn [mbind result_bind]. eexists. split; [reflexivity|].
    cbn [f_mul Q_ops]. rewrite !Hden. field. lra.
Qed.

Lemma geometry_smith_mirror_witness :
  exists g : Q,
    geometry_smith (V3 0 0 1)%Q (V3 0 0 1)%Q (V3 0 0 1)%Q 0%Q = Ok g /\ (g == 1)%Q.
Proof.
  apply (geometry_smith_mirror (V3 0 0 1)%Q (V3 0 0 1)%Q (V3 0 0 1)%Q 0%Q);
    reflexivity.
Defined.

(** ** BRDF integration and its table *)

(** X14.  [integrate_brdf] with [ndotv > 1] raises [ValueError], the
    domain error of [math.sqrt(1 - ndotv * ndotv)], before any sample is
    drawn, whatever the roughness and the number of samples. *)
Theorem integrate_brdf_domain (libm : MathLib Q) (ndotv roughness : Q) (num_samples : Z) :
  (1 < ndotv)%Q ->
  integrate_brdf libm ndotv roughness num_samples = Raise ValueError.
Proof.
  intros Hn. unfold integrate_brdf. cbv zeta.
  assert (py_max ndotv brdf_floor = ndotv) as ->.
  { unfold py_max. change (ndotv <? brdf_floor)%F with (Qltb ndotv brdf_floor).
    destruct (Qltb ndotv brdf_floor) eqn:E; [|reflexivity].
    apply Qltb_lt in E. assert (@brdf_floor Q _ == 1 # 10000)%Q as Hf by reflexivity.
    lra. }
  rewrite Q_py_sqrt_neg; [reflexivity|].
  cbn [f_mul f_sub Q_ops]. change (@f1 Q _) with 1%Q.
  assert (ndotv * 1 < ndotv * ndotv)%Q by (apply Qmult_lt_l; lra). lra.
Qed.

Lemma integrate_brdf_domain_witness :
  integrate_brdf libm_Q_unit 2%Q (1 # 2)%Q 1024 = Raise ValueError.
Proof. apply (integrate_brdf_domain libm_Q_unit 2%Q (1 # 2)%Q 1024). reflexivity. Defined.

Section LUTBounds.
Context {F : Type} `{FloatOps F} (libm : MathLib F).

(** X15.  Every float that [gen_brdf_lut] writes lies inside the RAM
    image of [lutsize * lutsize] texels of 8 bytes, at a byte offset that
    is a multiple of 4. *)
Theorem gen_brdf_lut_in_bounds (lutsize num_samples : Z) (handle : gmap Z F) :
  gen_brdf_lut libm lutsize num_samples = Ok handle ->
  forall (k : Z) (v : F), handle !! k = Some v ->
    0 <= k /\ k + 4 <= lutsize * lutsize * 8 /\ k mod 4 = 0.
Proof.
  unfold gen_brdf_lut.
  apply (for_each_invariant
           (fun h : gmap Z F => forall (k : Z) (v : F), h !! k = Some v ->
              0 <= k /\ k + 4 <= lutsize * lutsize * 8 /\ k mod 4 = 0)).
  - intros h [y x] h' Hin Hh Hbody k v Hk.
    apply lut_texels_spec in Hin as [Hy Hx].
    unfold lut_body in Hbody.
    destruct (py_int_div x lutsize) as [u| |]; try discriminate.
    destruct (py_int_div y lutsize) as [w| |]; try discriminate.
    cbn [mbind result_bind] in Hbody.
    destruct (integrate_brdf libm u w num_samples) as [res| |]; try discriminate.
    cbn [mbind result_bind] in Hbody. injection Hbody as <-.
    unfold pack_into_ff, lut_x_size, lut_component_width, lut_num_components in Hk.
    change (4 * 2) with 8 in Hk.
    apply lookup_insert_Some in Hk as [[<- _]|[_ Hk]];
      [|apply lookup_insert_Some in Hk as [[<- _]|[_ Hk]]; [|exact (Hh k v Hk)]].
    + split; [nia|]. split; [nia|].
      replace ((y * lutsize + x) * 8 + 4) with (4 + (2 * (y * lutsize + x)) * 4) by lia.
      rewrite Z.mod_add by lia. reflexivity.
    + split; [nia|]. split; [nia|].
      replace ((y * lutsize + x) * 8) with ((2 * (y * lutsize + x)) * 4) by lia.
      apply Z.mod_mul. lia.
  - intros k v Hk. rewrite lookup_empty in Hk. discriminate.
Qed.

End LUTBounds.

Lemma gen_brdf_lut_in_bounds_witness :
  exists handle : gmap Z float,
    gen_brdf_lut libm_at_zero 2 1 = Ok handle
    /\ forall (k : Z) (v : float), handle !! k = Some v ->
         0 <= k /\ k + 4 <= 2 * 2 * 8 /\ k mod 4 = 0.
Proof.
  destruct (gen_brdf_lut libm_at_zero 2 1) as [handle| |] eqn:E.
  - exists handle. split; [reflexivity|].
    exact (gen_brdf_lut_in_bounds libm_at_zero 2 1 handle E).
  - vm_compute in E. discriminate E.
  - vm_compute in E. discriminate E.
Defined.

(** ** Prefiltering: what a texel of the filtered map holds *)

Lemma filter_body_sample {F : Type} `{FloatOps F} (libm : MathLib F) pos normal view envmap
    roughness num_samples retval totweight idx hvec light :
  sample_light libm normal view roughness num_samples idx = Ok (hvec, light) ->
  filter_body libm pos normal view envmap roughness num_samples (retval, totweight) idx
  = if accepted (v3_dot normal light)
    then Ok (v3_add retval
               (v3_scale (c_xyz (lookup envmap (v3x pos) (v3y pos) (v3z pos)))
                         (py_max (v3_dot normal light) f0)),
             (totweight + py_max (v3_dot normal light) f0)%F)
    else Ok (retval, totweight).
Proof. intros Hs. unfold filter_body. rewrite Hs. reflexivity. Qed.

Lemma accepted_Q_pos (d : Q) : accepted d = true -> (0 < py_max d f0)%Q.
Proof. unfold accepted. intros Ha. apply Qltb_lt in Ha. exact Ha. Qed.

(** The accumulators of [filter_sample]: the color at [pos] times the
    total weight, which an accepted sample increases. *)
Lemma filter_loop_Q (libm : MathLib Q) (pos normal : LVector3 Q)
    (envmap : TexturePeeker Q) (roughness : Q) (num_samples : Z)
    (samples : Z -> LVector3 Q * LVector3 Q) (xs : list Z) :
  let color := c_xyz (lookup envmap (v3x pos) (v3y pos) (v3z pos)) in
  (forall idx, idx ∈ xs ->
     sample_light libm normal normal roughness num_samples idx = Ok (samples idx)) ->
  forall retval totweight,
    v3_eq retval (v3_scale color totweight) -> (0 <= totweight)%Q ->
    exists retval' totweight',
      for_each (filter_body libm pos normal normal envmap roughness num_samples) xs
               (retval, totweight) = Ok (retval', totweight')
      /\ v3_eq retval' (v3_scale color totweight')
      /\ (totweight <= totweight')%Q
      /\ ((exists idx, idx ∈ xs /\ accepted (v3_dot normal (samples idx).2) = true) ->
          (totweight < totweight')%Q).
Proof.
  intros color. induction xs as [|idx xs IH]; intros Hs retval totweight Heq Hw.
  - exists retval, totweight. split; [reflexivity|]. split; [exact Heq|].
    split; [lra|]. intros (idx & Hin & _). inversion Hin.
  - cbn [for_each].
    destruct (samples idx) as [hvec light] eqn:Esample.
    rewrite (filter_body_sample libm pos normal normal envmap roughness num_samples
               retval totweight idx hvec light)
      by (rewrite (Hs idx) by left; rewrite Esample; reflexivity).
    fold color.
    assert (forall i, i ∈ xs ->
              sample_light libm normal normal roughness num_samples i = Ok (samples i))
      as Hs' by (intros i Hi; apply Hs; right; exact Hi).
    destruct (accepted (v3_dot normal light)) eqn:Eacc; cbn [mbind result_bind].
    + pose proof (accepted_Q_pos _ Eacc) as Hpos.
      set (ndotl := py_max (v3_dot normal light) f0) in *.
      destruct (IH Hs' (v3_add retval (v3_scale color ndotl)) (totweight + ndotl)%F)
        as (r' & w' & Hfor & Heq' & Hle & _).
      { destruct Heq as (Hx & Hy & Hz). unfold v3_eq, v3_add, v3_scale in *.
        cbn [v3x v3y v3z f_add f_mul Q_ops] in *. rewrite Hx, Hy, Hz.
        repeat split; ring. }
      { cbn [f_add Q_ops]. lra. }
      exists r', w'. split; [exact Hfor|]. split; [exact Heq'|].
      cbn [f_add Q_ops] in Hle. split; [lra|]. intros _. lra.
    + destruct (IH Hs' retval totweight Heq Hw) as (r' & w' & Hfor & Heq' & Hle & Hlt).
      exists r', w'. split; [exact Hfor|]. split; [exact Heq'|]. split; [exact Hle|].
      intros (i & Hin & Hacc). apply Hlt.
      apply elem_of_cons in Hin as [->|Hin].
      * rewrite Esample in Hacc. cbn [snd] in Hacc.
        rewrite Eacc in Hacc. discriminate.
      * exists i. split; assumption.
Qed.

(** X16.  In exact arithmetic, when the samples are computed and at
    least one is accepted, [filter_sample] returns the color that
    [envmap.lookup] gives at [pos] itself, whatever the roughness and the
    number of samples: every accepted sample looks the map up at [pos],
    not at its light direction, so the weighted average is that one
    color. *)
Theorem filter_sample_color_at_pos (libm : MathLib Q) (pos : LVector3 Q)
    (envmap : TexturePeeker Q) (roughness : Q) (num_samples : Z)
    (samples : Z -> LVector3 Q * LVector3 Q) :
  let normal := v3_normalized libm pos in
  (forall idx, 0 <= idx < num_samples ->
     sample_light libm normal normal roughness num_samples idx = Ok (samples idx)) ->
  (exists idx, 0 <= idx < num_samples
               /\ accepted (v3_dot normal (samples idx).2) = true) ->
  exists res,
    filter_sample libm pos envmap roughness num_samples = Ok res
    /\ v3_eq res (c_xyz (lookup envmap (v3x pos) (v3y pos) (v3z pos))).
Proof.
  intros normal Hs (idx & Hidx & Hacc). unfold filter_sample. cbv zeta. fold normal.
  destruct (filter_loop_Q libm pos normal envmap roughness num_samples samples
              (range num_samples)) with (retval := @v3_zero Q _) (totweight := @f0 Q _)
    as (r' & w' & Hfor & Heq & _ & Hlt).
  { intros i Hi. apply elem_of_seqZ in Hi. apply Hs. lia. }
  { unfold v3_eq, v3_scale, v3_zero. cbn [v3x v3y v3z f_mul Q_ops].
    change (@f0 Q _) with 0%Q. repeat split; ring. }
  { change (@f0 Q _) with 0%Q. lra. }
  rewrite Hfor. cbn [mbind result_bind]. eexists. split; [reflexivity|].
  assert (0 < w')%Q as Hw.
  { change (@f0 Q _) with 0%Q in Hlt. apply Hlt. exists idx.
    split; [apply elem_of_seqZ; lia | exact Hacc]. }
  destruct Heq as (Hx & Hy & Hz). unfold v3_eq, v3_div, v3_scale in *.
  cbn [v3x v3y v3z f_div f_mul Q_ops] in *. rewrite Hx, Hy, Hz.
  repeat split; field; lra.
Qed.

Lemma filter_sample_color_at_pos_witness :
  exists res,
    filter_sample libm_Q_unit (V3 0 0 1)%Q white_peeker (1 # 2)%Q 1 = Ok res
    /\ v3_eq res (V3 1 1 1)%Q.
Proof.
  refine (filter_sample_color_at_pos libm_Q_unit (V3 0 0 1)%Q white_peeker (1 # 2)%Q 1
            filter_test_samples _ _).
  - intros idx Hidx. assert (idx = 0) as -> by lia. vm_compute. reflexivity.
  - exists 0. split; [lia | vm_compute; reflexivity].
Defined.

(** ** The mip chain *)

Section EnvMapProps.
Context {F : Type} `{FloatOps F} (libm : MathLib F).

Lemma env_texels_spec (mipsize face x y : Z) :
  (face, x, y) ∈ env_texels mipsize
  <-> 0 <= face < 6 /\ 0 <= x < mipsize /\ 0 <= y < mipsize.
Proof.
  unfold env_texels, range. rewrite list_elem_of_bind. split.
  - intros [f [Hin Hf]]. apply list_elem_of_bind in Hin as [x' [Hin Hx]].
    apply list_elem_of_bind in Hin as [y' [Hin Hy]].
    apply list_elem_of_singleton in Hin. injection Hin as -> -> ->.
    apply elem_of_seqZ in Hf, Hx, Hy. lia.
  - intros (Hf & Hx & Hy). exists face. split; [|apply elem_of_seqZ; lia].
    apply list_elem_of_bind. exists x. split; [|apply elem_of_seqZ; lia].
    apply list_elem_of_bind. exists y. split; [left | apply elem_of_seqZ; lia].
Qed.

(** Two texels of a mip image do not overlap. *)
Lemma env_offset_inj (mipsize : Z) (a b : Z * Z * Z) :
  0 <= a.1.2 < mipsize -> 0 <= a.2 < mipsize ->
  0 <= b.1.2 < mipsize -> 0 <= b.2 < mipsize ->
  a <> b ->
  env_offset mipsize a + 12 <= env_offset mipsize b
  \/ env_offset mipsize b + 12 <= env_offset mipsize a.
Proof.
  destruct a as [[fa xa] ya], b as [[fb xb] yb]. unfold env_offset. cbn [fst snd].
  intros Hxa Hya Hxb Hyb Hne.
  assert ((fa * mipsize + ya) * mipsize + xa <> (fb * mipsize + yb) * mipsize + xb) as Hk.
  { intros Heq. apply Hne.
    assert (fa * mipsize + ya = fb * mipsize + yb) as Hrow by nia.
    assert (fa = fb) as -> by nia.
    assert (ya = yb) as -> by lia. assert (xa = xb) as -> by lia. reflexivity. }
  lia.
Qed.

Lemma env_write_other mipsize vals (xs : list (Z * Z * Z)) (k : Z) :
  (forall a, a ∈ xs -> k < env_offset mipsize a \/ env_offset mipsize a + 12 <= k) ->
  forall texdata : gmap Z F,
    foldl (env_write mipsize vals) texdata xs !! k = texdata !! k.
Proof.
  induction xs as [|a xs IH]; intros Hk texdata; [reflexivity|].
  cbn [foldl]. rewrite IH by (intros a' Ha'; apply Hk; right; exact Ha').
  pose proof (Hk a ltac:(left)) as Ha.
  unfold env_write, pack_into_fff. rewrite !lookup_insert_ne by lia. reflexivity.
Qed.

Lemma env_write_texel mipsize vals (xs : list (Z * Z * Z)) (t : Z * Z * Z) :
  (forall a, a ∈ xs -> 0 <= a.1.2 < mipsize /\ 0 <= a.2 < mipsize) -> t ∈ xs ->
  forall texdata : gmap Z F,
    let data := foldl (env_write mipsize vals) texdata xs in
    data !! env_offset mipsize t = Some (v3z (vals t.1.1 t.1.2 t.2))
    /\ data !! (env_offset mipsize t + 4) = Some (v3y (vals t.1.1 t.1.2 t.2))
    /\ data !! (env_offset mipsize t + 8) = Some (v3x (vals t.1.1 t.1.2 t.2)).
Proof.
  induction xs as [|a xs IH]; intros Hdom Hin texdata; [inversion Hin|].
  cbn [foldl]. cbv zeta.
  destruct (decide (t ∈ xs)) as [Hin'|Hnin].
  - apply IH; [intros a' Ha'; apply Hdom; right; exact Ha' | exact Hin'].
  - assert (a = t) as ->.
    { apply elem_of_cons in Hin as [->|?]; [reflexivity | contradiction]. }
    assert (forall b, b ∈ xs ->
              env_offset mipsize t + 12 <= env_offset mipsize b
              \/ env_offset mipsize b + 12 <= env_offset mipsize t) as Hsep.
    { intros b Hb. destruct (Hdom t ltac:(left)) as [? ?].
      destruct (Hdom b ltac:(right; exact Hb)) as [? ?].
      apply env_offset_inj; try assumption. intros ->. contradiction. }
    repeat split; (rewrite env_write_other;
      [| intros b Hb; destruct (Hsep b Hb); lia]);
      unfold env_write, pack_into_fff.
    + rewrite !lookup_insert_ne by lia. apply lookup_insert_eq.
    + rewrite lookup_insert_ne by lia. apply lookup_insert_eq.
    + apply lookup_insert_eq.
Qed.

Lemma mip_insert_lookup (data : Z -> gmap Z F) (xs : list Z) (i : Z) :
  i ∈ xs ->
  forall filtered : gmap Z (gmap Z F),
    foldl (fun f j => <[j := data j]> f) filtered xs !! i = Some (data i).
Proof.
  induction xs as [|a xs IH]; intros Hin filtered; [inversion Hin|].
  cbn [foldl]. destruct (decide (i ∈ xs)) as [Hin'|Hnin]; [apply IH; exact Hin'|].
  assert (a = i) as ->.
  { apply elem_of_cons in Hin as [->|?]; [reflexivity | contradiction]. }
  clear IH Hin. revert filtered. induction xs as [|b xs IH]; intros filtered.
  - apply lookup_insert_eq.
  - cbn [foldl]. rewrite not_elem_of_cons in Hnin. destruct Hnin as [Hne Hnin].
    rewrite insert_insert_ne by congruence. apply IH. exact Hnin.
Qed.

(** X17.  If [calc_vector] and [filter_sample] return for every texel of
    every mip level, [filter_env_map] stores one image per level
    [0 <= i < num_mipmaps], of face size [int(size * 0.5 ** i)] and
    roughness [i / num_mipmaps]; in it the 12 bytes of texel
    [(face, x, y)], at byte offset
    [((face * mipsize + y) * mipsize + x) * 12], hold the components of the
    filtered color in the order z, y, x. *)
Theorem filter_env_map_texels (peeker : TexturePeeker F) (size num_mipmaps num_samples : Z)
    (vals : Z -> Z -> Z -> Z -> LVector3 F) :
  (forall i face x y,
     0 <= i < num_mipmaps -> 0 <= face < 6 ->
     0 <= x < mip_size size i -> 0 <= y < mip_size size i ->
     exists vec,
       calc_vector (mip_size size i) face x y = Ok vec
       /\ filter_sample libm (V3 vec.1.1 vec.1.2 vec.2) peeker
                        (f_of_Z i / f_of_Z num_mipmaps)%F num_samples
          = Ok (vals i face x y)) ->
  exists filtered : gmap Z (gmap Z F),
    filter_env_map libm peeker size num_mipmaps num_samples = Ok filtered
    /\ forall i, 0 <= i < num_mipmaps ->
       exists texdata : gmap Z F,
         filtered !! i = Some texdata
         /\ forall face x y,
              0 <= face < 6 -> 0 <= x < mip_size size i -> 0 <= y < mip_size size i ->
              let offset := ((face * mip_size size i + y) * mip_size size i + x) * 12 in
              texdata !! offset = Some (v3z (vals i face x y))
              /\ texdata !! (offset + 4) = Some (v3y (vals i face x y))
              /\ texdata !! (offset + 8) = Some (v3x (vals i face x y)).
Proof.
  intros Hvals.
  set (data := fun i => foldl (env_write (mip_size size i) (vals i)) ∅
                              (env_texels (mip_size size i))).
  exists (foldl (fun f j => <[j := data j]> f) ∅ (range num_mipmaps)). split.
  - unfold filter_env_map. apply for_each_pure.
    intros filtered i Hi. apply elem_of_seqZ in Hi.
    unfold mip_body, py_int_div. cbv zeta.
    destruct (Z.eqb_spec num_mipmaps 0); [lia|]. cbn [mbind result_bind].
    rewrite (for_each_pure _ (env_write (mip_size size i) (vals i))); [reflexivity|].
    intros texdata [[face x] y] Hin. apply env_texels_spec in Hin as (Hf & Hx & Hy).
    unfold env_body.
    destruct (Hvals i face x y) as (vec & -> & Hfs); [lia..|].
    cbn [mbind result_bind]. rewrite Hfs. reflexivity.
  - intros i Hi. exists (data i). split.
    + apply mip_insert_lookup. apply elem_of_seqZ. lia.
    + intros face x y Hf Hx Hy.
      apply (env_write_texel (mip_size size i) (vals i) (env_texels (mip_size size i))
               (face, x, y)).
      * intros [[fa xa] ya] Ha. apply env_texels_spec in Ha. cbn [fst snd]. lia.
      * apply env_texels_spec. lia.
Qed.

End EnvMapProps.

Lemma filter_env_map_texels_witness :
  exists filtered : gmap Z (gmap Z float),
    filter_env_map libm_at_zero white_peeker 2 1 1 = Ok filtered
    /\ forall i, 0 <= i < 1 ->
       exists texdata : gmap Z float,
         filtered !! i = Some texdata
         /\ forall face x y,
              0 <= face < 6 -> 0 <= x < mip_size 2 i -> 0 <= y < mip_size 2 i ->
              let offset := ((face * mip_size 2 i + y) * mip_size 2 i + x) * 12 in
              texdata !! offset = Some (v3z (env_test_vals i face x y))
              /\ texdata !! (offset + 4) = Some (v3y (env_test_vals i face x y))
              /\ texdata !! (offset + 8) = Some (v3x (env_test_vals i face x y)).
Proof.
  apply (filter_env_map_texels libm_at_zero white_peeker 2 1 1 env_test_vals).
  intros i face x y Hi Hf Hx Hy. assert (i = 0) as -> by lia.
  change (mip_size 2 0) with 2 in *.
  assert (x = 0 \/ x = 1) as [-> | ->] by lia;
    (assert (y = 0 \/ y = 1) as [-> | ->] by lia);
    (assert (face = 0 \/ face = 1 \/ face = 2 \/ face = 3 \/ face = 4 \/ face = 5)
       as [-> | [-> | [-> | [-> | [-> | ->]]]]] by lia);
    (eexists; split; [vm_compute; reflexivity | vm_compute; reflexivity]).
Defined.

Lemma range_split (i n : Z) :
  0 <= i < n -> range n = range i ++ i :: seqZ (i + 1) (n - i - 1).
Proof.
  intros Hi. unfold range.
  replace n with (i + (n - i)) at 1 by lia.
  rewrite seqZ_app by lia. f_equal.
  rewrite seqZ_cons by lia.
  replace (Z.succ (0 + i)) with (i + 1) by lia.
  replace (Z.pred (n - i)) with (n - i - 1) by lia.
  replace (0 + i) with i by lia. reflexivity.
Qed.

Section MipOfSize1.
Context {F : Type} `{FloatOps F} (libm : MathLib F).
Context (peeker : TexturePeeker F) (size num_mipmaps num_samples : Z).

Lemma mip_insert_absent (data : Z -> gmap Z F) (xs : list Z) (j : Z) :
  j ∉ xs ->
  forall filtered : gmap Z (gmap Z F),
    foldl (fun f k => <[k := data k]> f) filtered xs !! j = filtered !! j.
Proof.
  induction xs as [|a xs IH]; intros Hj filtered; [reflexivity|].
  rewrite not_elem_of_cons in Hj. destruct Hj as [Hne Hj].
  cbn [foldl]. rewrite IH by exact Hj. apply lookup_insert_ne. congruence.
Qed.

(** [filter_env_map] is the outcome of [filter_env_map_stored], with the
    stored chain when the call returns. *)
Lemma filter_env_map_stored_result :
  filter_env_map libm peeker size num_mipmaps num_samples
  = match (filter_env_map_stored libm peeker size num_mipmaps num_samples).2 with
    | Ok _ => Ok (filter_env_map_stored libm peeker size num_mipmaps num_samples).1
    | Raise e => Raise e
    | Diverge => Diverge
    end.
Proof. apply for_each_state_result. Qed.

(** The levels before level [k], when each of their texels is computed. *)
Lemma mip_levels_stored (vals : Z -> Z -> Z -> Z -> LVector3 F) (k : Z) :
  k <= num_mipmaps ->
  (forall j face x y,
     0 <= j < k -> 0 <= face < 6 ->
     0 <= x < mip_size size j -> 0 <= y < mip_size size j ->
     exists vec,
       calc_vector (mip_size size j) face x y = Ok vec
       /\ filter_sample libm (V3 vec.1.1 vec.1.2 vec.2) peeker
                        (f_of_Z j / f_of_Z num_mipmaps)%F num_samples
          = Ok (vals j face x y)) ->
  for_each (mip_body libm peeker size num_mipmaps num_samples) (range k) ∅
  = Ok (foldl (fun f j =>
                 <[j := foldl (env_write (mip_size size j) (vals j)) ∅
                              (env_texels (mip_size size j))]> f)
              ∅ (range k)).
Proof.
  intros Hk Hvals. apply for_each_pure.
  intros filtered j Hj. apply elem_of_seqZ in Hj.
  unfold mip_body, py_int_div. cbv zeta.
  destruct (Z.eqb_spec num_mipmaps 0); [lia|]. cbn [mbind result_bind].
  rewrite (for_each_pure _ (env_write (mip_size size j) (vals j))); [reflexivity|].
  intros texdata [[face x] y] Hin. apply env_texels_spec in Hin as (Hf & Hx & Hy).
  unfold env_body.
  destruct (Hvals j face x y) as (vec & -> & Hfs); [lia..|].
  cbn [mbind result_bind]. rewrite Hfs. reflexivity.
Qed.

(** A level of face size 1 raises at its first texel, whatever is
    stored. *)
Lemma mip_body_size_1 (filtered : gmap Z (gmap Z F)) (i : Z) :
  calc_vector (F:=F) 1 0 0 0 = Raise ZeroDivisionError ->
  num_mipmaps <> 0 -> mip_size size i = 1 ->
  mip_body libm peeker size num_mipmaps num_samples filtered i = Raise ZeroDivisionError.
Proof.
  intros Hcv Hn Hm. unfold mip_body, py_int_div. cbv zeta.
  destruct (Z.eqb_spec num_mipmaps 0); [contradiction|]. cbn [mbind result_bind].
  rewrite Hm.
  change (env_texels 1) with ((0, 0, 0) :: List.tail (env_texels 1)).
  cbn [for_each].
  assert (forall roughness texdata,
            env_body libm peeker 1 roughness num_samples texdata (0, 0, 0)
            = Raise ZeroDivisionError) as ->
    by (intros roughness texdata; unfold env_body; rewrite Hcv; reflexivity).
  reflexivity.
Qed.

Lemma filter_env_map_size_1 (vals : Z -> Z -> Z -> Z -> LVector3 F) (i : Z) :
  calc_vector (F:=F) 1 0 0 0 = Raise ZeroDivisionError ->
  0 <= i < num_mipmaps -> mip_size size i = 1 ->
  (forall filtered,
     mip_body libm peeker size num_mipmaps num_samples filtered i = Raise ZeroDivisionError)
  /\ (forall filtered,
        filter_env_map libm peeker size num_mipmaps num_samples <> Ok filtered)
  /\ ((forall j face x y,
         0 <= j < i -> 0 <= face < 6 ->
         0 <= x < mip_size size j -> 0 <= y < mip_size size j ->
         exists vec,
           calc_vector (mip_size size j) face x y = Ok vec
           /\ filter_sample libm (V3 vec.1.1 vec.1.2 vec.2) peeker
                            (f_of_Z j / f_of_Z num_mipmaps)%F num_samples
              = Ok (vals j face x y)) ->
      exists stored : gmap Z (gmap Z F),
        filter_env_map_stored libm peeker size num_mipmaps num_samples
        = (stored, Raise ZeroDivisionError)
        /\ filter_env_map libm peeker size num_mipmaps num_samples
           = Raise ZeroDivisionError
        /\ (forall j, 0 <= j < i ->
              stored !! j = Some (foldl (env_write (mip_size size j) (vals j)) ∅
                                        (env_texels (mip_size size j))))
        /\ (forall j, i <= j -> stored !! j = None)).
Proof.
  intros Hcv Hi Hm.
  assert (forall filtered,
            mip_body libm peeker size num_mipmaps num_samples filtered i
            = Raise ZeroDivisionError) as Hraise
    by (intros filtered; apply mip_body_size_1; [exact Hcv | lia | exact Hm]).
  split; [exact Hraise|]. split.
  - intros filtered. unfold filter_env_map.
    apply (for_each_raises _ _ i); [apply elem_of_seqZ; lia|].
    intros f f'. rewrite Hraise. discriminate.
  - intros Hvals.
    pose proof (mip_levels_stored vals i ltac:(lia) Hvals) as Hbefore.
    eexists. split; [|split; [|split]].
    + unfold filter_env_map_stored. rewrite (range_split i num_mipmaps Hi).
      rewrite (for_each_state_app _ _ _ _ _ Hbefore).
      cbn [for_each_state]. rewrite Hraise. reflexivity.
    + unfold filter_env_map. rewrite (range_split i num_mipmaps Hi).
      rewrite for_each_app, Hbefore. cbn [mbind result_bind for_each].
      rewrite Hraise. reflexivity.
    + intros j Hj.
      apply (mip_insert_lookup
               (fun j => foldl (env_write (mip_size size j) (vals j)) ∅
                               (env_texels (mip_size size j)))).
      apply elem_of_seqZ. lia.
    + intros j Hj.
      rewrite (mip_insert_absent
                 (fun j => foldl (env_write (mip_size size j) (vals j)) ∅
                                 (env_texels (mip_size size j)))).
      * apply lookup_empty.
      * intros Hin. apply elem_of_seqZ in Hin. lia.
Qed.

End MipOfSize1.

(** X18.  A mip chain that reaches a level [i] of face size 1 cannot be
    computed (size 16 with 5 levels, for instance; the default 4 levels
    stop at size 2): at that level [calc_vector] divides by [(1 - 1) * 2],
    so the level raises [ZeroDivisionError] at its first texel, and
    [filter_env_map] never returns.  When the levels before [i] are
    computed, they are stored in the texture [filtered], level [i] and the
    levels after it are not, and the call raises [ZeroDivisionError]: the
    caller is left with the first [i] levels of the chain. *)
Theorem filter_env_map_mip_of_size_1 (libm : MathLib float) (peeker : TexturePeeker float)
    (size num_mipmaps num_samples i : Z) (vals : Z -> Z -> Z -> Z -> LVector3 float) :
  0 <= i < num_mipmaps -> mip_size size i = 1 ->
  (forall filtered,
     mip_body libm peeker size num_mipmaps num_samples filtered i = Raise ZeroDivisionError)
  /\ (forall filtered,
        filter_env_map libm peeker size num_mipmaps num_samples <> Ok filtered)
  /\ ((forall j face x y,
         0 <= j < i -> 0 <= face < 6 ->
         0 <= x < mip_size size j -> 0 <= y < mip_size size j ->
         exists vec,
           calc_vector (mip_size size j) face x y = Ok vec
           /\ filter_sample libm (V3 vec.1.1 vec.1.2 vec.2) peeker
                            (f_of_Z j / f_of_Z num_mipmaps)%F num_samples
              = Ok (vals j face x y)) ->
      exists stored : gmap Z (gmap Z float),
        filter_env_map_stored libm peeker size num_mipmaps num_samples
        = (stored, Raise ZeroDivisionError)
        /\ filter_env_map libm peeker size num_mipmaps num_samples
           = Raise ZeroDivisionError
        /\ (forall j, 0 <= j < i ->
              stored !! j = Some (foldl (env_write (mip_size size j) (vals j)) ∅
                                        (env_texels (mip_size size j))))
        /\ (forall j, i <= j -> stored !! j = None)).
Proof.
  intros Hi Hm.
  exact (filter_env_map_size_1 libm peeker size num_mipmaps num_samples vals i
           eq_refl Hi Hm).
Qed.

(** [filter_env_map(white, size=2, num_mipmaps=2, num_samples=1)]: level 0,
    of face size 2, is stored, and level 1, of face size 1, raises. *)
Lemma filter_env_map_mip_of_size_1_witness :
  exists stored : gmap Z (gmap Z float),
    filter_env_map_stored libm_at_zero white_peeker 2 2 1
    = (stored, Raise ZeroDivisionError)
    /\ filter_env_map libm_at_zero white_peeker 2 2 1 = Raise ZeroDivisionError
    /\ (forall j, 0 <= j < 1 ->
          stored !! j = Some (foldl (env_write (mip_size 2 j) (env_test_vals j)) ∅
                                    (env_texels (mip_size 2 j))))
    /\ (forall j, 1 <= j -> stored !! j = None).
Proof.
  apply (filter_env_map_mip_of_size_1 libm_at_zero white_peeker 2 2 1 1 env_test_vals);
    [lia | reflexivity |].
  intros j face x y Hj Hf Hx Hy. assert (j = 0) as -> by lia.
  change (mip_size 2 0) with 2 in *.
  assert (x = 0 \/ x = 1) as [-> | ->] by lia;
    (assert (y = 0 \/ y = 1) as [-> | ->] by lia);
    (assert (face = 0 \/ face = 1 \/ face = 2 \/ face = 3 \/ face = 4 \/ face = 5)
       as [-> | [-> | [-> | [-> | [-> | ->]]]]] by lia);
    (eexists; split; [vm_compute; reflexivity | vm_compute; reflexivity]).
Defined.
